(** * redissertation: data acquisition and cleaning scripts

    A shallow embedding of the three scripts of the repository

    - [data.py]                     (module [Data]),
    - [process_reforecast_data.py]  (module [Reforecast]),
    - [download-GEFSV12-v0.1.py]    (module [Download]),

    and the properties of their specification.

    Conventions of the embedding.

    - A pandas [datetime64[ns]] value is its count of nanoseconds since the
      epoch, an [int64] written as a [Z] with the bounds spelled out; [NaT]
      is a constructor of its own.  Arithmetic that leaves the [int64] range
      raises in pandas and is [None] here.
    - A Python [float] is an IEEE-754 binary64 number, Rocq's primitive
      [float]: [+], [-], [<], [<=] and [==] are the machine operations, with
      their rounding, their infinities and NaN.
    - An exception that a function lets escape is a constructor of the
      result type; a function that catches it returns a value. *)

From stdpp Require Import base option list strings gmap pretty.
From Stdlib Require Import Ascii ZArith Lia.
From Stdlib Require Import PrimFloat SpecFloat FloatOps FloatAxioms.

#[local] Open Scope Z_scope.

(** ** Python values and builtins used by the scripts *)
Module Python.

(** The exceptions that the scripts raise or let escape. *)
Inductive exn :=
| ValueError (msg : string) (got : list float)
| TypeError (msg : string)
| NameError (name : string)
| UnboundLocalError (name : string)
| ZeroDivisionError
| OSError.

Inductive result (A : Type) := Return (a : A) | Raise (e : exn).
Arguments Return {A} a.
Arguments Raise {A} e.

Definition bind {A B} (r : result A) (k : A -> result B) : result B :=
  match r with Return a => k a | Raise e => Raise e end.

(** [x > y] and [x >= y] on floats; [x < y], [x <= y] and [x == y] are
    [x <? y], [x <=? y] and [x =? y].  Every comparison with NaN is
    [False]. *)
Definition gtb (x y : float) : bool := (y <? x)%float.
Definition geb (x y : float) : bool := (y <=? x)%float.

(** [min(iterable)] on a sequence: the first item is kept until an item
    [y] with [y < cur] is met; an empty sequence raises [ValueError]. *)
Definition py_min (l : list float) : result float :=
  match l with
  | [] => Raise (ValueError "min() arg is an empty sequence" [])
  | x :: l =>
      Return (foldl (fun cur y => if (y <? cur)%float then y else cur) x l)
  end.

(** [max(iterable)] on a sequence: the first item is kept until an item
    [y] with [y > cur] is met. *)
Definition py_max (l : list float) : result float :=
  match l with
  | [] => Raise (ValueError "max() arg is an empty sequence" [])
  | x :: l => Return (foldl (fun cur y => if gtb y cur then y else cur) x l)
  end.

(** The names bound in a module's namespace, and the lookup of a global
    name that is no builtin: an unbound name raises [NameError]. *)
Definition namespace := list string.

Definition global (names : namespace) (name : string) : result unit :=
  if decide (name ∈ names) then Return tt else Raise (NameError name).

(** [s.split(sep)] for a one-character separator. *)
Fixpoint split (sep : ascii) (s : string) : list string :=
  match s with
  | EmptyString => [EmptyString]
  | String c s' =>
      if Ascii.eqb c sep then EmptyString :: split sep s'
      else match split sep s' with
           | [] => [String c EmptyString]
           | w :: ws => String c w :: ws
           end
  end.

(** [needle in s] for strings. *)
Fixpoint contains (needle s : string) : bool :=
  String.prefix needle s
  || match s with EmptyString => false | String _ s' => contains needle s' end.

(** [os.path.join(a, b)] on POSIX. *)
Definition path_join (a b : string) : string :=
  if String.prefix "/" b then b
  else if String.eqb a ""
          || String.eqb (String.substring (String.length a - 1)%nat 1 a) "/"
       then a +:+ b
       else a +:+ "/" +:+ b.

(** ['%02d' % n] for a non-negative [n]. *)
Definition pad2 (n : Z) : string :=
  if n <? 10 then "0" +:+ pretty n else pretty n.

End Python.

(** ** Proleptic Gregorian calendar

    pandas, [datetime.date] and [strftime] all count days in the proleptic
    Gregorian calendar.  Days are counted from 1970-01-01. *)
Module Calendar.

Record date := mkdate { year : Z; month : Z; day : Z }.

(** Number of days from 1970-01-01 to [y]-[m]-[d]. *)
Definition days_from_civil (y m d : Z) : Z :=
  let y' := if m <=? 2 then y - 1 else y in
  let era := y' / 400 in
  let yoe := y' - era * 400 in
  let mp := (m + 9) mod 12 in
  let doy := (153 * mp + 2) / 5 + d - 1 in
  let doe := yoe * 365 + yoe / 4 - yoe / 100 + doy in
  era * 146097 + doe - 719468.

(** The calendar date of day number [z]. *)
Definition civil_from_days (z : Z) : date :=
  let z := z + 719468 in
  let era := z / 146097 in
  let doe := z - era * 146097 in
  let yoe := (doe - doe / 1460 + doe / 36524 - doe / 146096) / 365 in
  let doy := doe - (365 * yoe + yoe / 4 - yoe / 100) in
  let mp := (5 * doy + 2) / 153 in
  let d := doy - (153 * mp + 2) / 5 + 1 in
  let m := if mp <? 10 then mp + 3 else mp - 9 in
  let y := yoe + era * 400 in
  mkdate (if m <=? 2 then y + 1 else y) m d.

Definition ns_per_hour : Z := 3600 * 10 ^ 9.
Definition ns_per_day : Z := 24 * ns_per_hour.

(** Nanoseconds since the epoch of [y]-[m]-[d]T[hh]:[mm]Z. *)
Definition utc (y m d hh mm : Z) : Z :=
  days_from_civil y m d * ns_per_day + hh * ns_per_hour + mm * 60 * 10 ^ 9.

End Calendar.

(** ** data.py: the tornado-report cleaner *)
Module Data.
Import Calendar.

(** A cell of a [datetime64[ns]] column. *)
Inductive datetime64 := NaT | Timestamp (ns : Z).

Definition Timestamp_min : Z := - 2 ^ 63 + 1.
Definition Timestamp_max : Z := 2 ^ 63 - 1.

Definition in_bounds (ns : Z) : bool :=
  (Timestamp_min <=? ns) && (ns <=? Timestamp_max).

(** [pd.Timedelta('<h>H')], in nanoseconds. *)
Definition Timedelta_H (h : Z) : Z := h * ns_per_hour.

(** [x + td] for a cell [x]; [NaT] is absorbing, leaving the [int64] range
    raises [OverflowError]. *)
Definition dt_add (x : datetime64) (td : Z) : option datetime64 :=
  match x with
  | NaT => Some NaT
  | Timestamp ns =>
      if in_bounds (ns + td) then Some (Timestamp (ns + td)) else None
  end.

(** [.dt.ceil(freq)]: pandas rounds the nanosecond count up with
    [values + remainder(-values, unit)]. *)
Definition ceil_ns (ns unit : Z) : Z := ns + (- ns) mod unit.

Definition dt_ceil (unit : Z) (x : datetime64) : option datetime64 :=
  match x with
  | NaT => Some NaT
  | Timestamp ns =>
      if in_bounds (ceil_ns ns unit) then Some (Timestamp (ceil_ns ns unit))
      else None
  end.

(** Hour of the day of a nanosecond count. *)
Definition hour_of (ns : Z) : Z := (ns / ns_per_hour) mod 24.

(** [.dt.hour]; the hour of [NaT] is NaN, here [None]. *)
Definition dt_hour (x : datetime64) : option Z :=
  match x with NaT => None | Timestamp ns => Some (hour_of ns) end.

(** [.dt.year]; NaN for [NaT]. *)
Definition dt_year (x : datetime64) : option Z :=
  match x with
  | NaT => None
  | Timestamp ns => Some (year (civil_from_days (ns / ns_per_day)))
  end.

(** [h != 0] on a float column: NaN differs from every number. *)
Definition ne_zero (h : option Z) : bool :=
  match h with None => true | Some h => negb (h =? 0) end.

(** [h >= y] on a float column: every comparison with NaN is false. *)
Definition ge_year (h : option Z) (y : Z) : bool :=
  match h with None => false | Some h => y <=? h end.

(** [s.where(cond, other)] keeps [s] where [cond] holds and takes [other]
    elsewhere. *)
Definition where_ (cond : bool) (s other : datetime64) : datetime64 :=
  if cond then s else other.

(** The columns of the report table that the cleaning chain reads. *)
Record report := mkreport {
  f_or_ef_scale : Z;
  timezone : Z;
  observation_datetime : datetime64
}.

Definition DataFrame := list report.

Definition drop_unknown_f_or_ef_scales (df : DataFrame) (unknown_scale_id : Z)
  : DataFrame :=
  filter (fun r => f_or_ef_scale r ≠ unknown_scale_id) df.

Definition filter_by_year (df : DataFrame) (earliest_year_for_obs : Z)
  : DataFrame :=
  filter (fun r => ge_year (dt_year (observation_datetime r))
                     earliest_year_for_obs = true) df.

Definition filter_non_central_time_reports (df : DataFrame)
    (timezone_to_keep : Z) : DataFrame :=
  filter (fun r => timezone r = timezone_to_keep) df.

(** [find_valid_time]: the three column expressions of lines 50-51, then the
    new column is attached to the rows. *)
Definition find_valid_time (df : DataFrame)
  : option (list (report * datetime64)) :=
  let obs := observation_datetime <$> df in
  shifted ← mapM (fun x => dt_add x (Timedelta_H 6)) obs;
  valid_times ← mapM (dt_ceil (Timedelta_H 12)) shifted;
  other ← mapM (fun x => dt_add x (Timedelta_H 12)) valid_times;
  let cond := (fun v => ne_zero (dt_hour v)) <$> valid_times in
  let valid_times :=
    zip_with (fun c vo => where_ c vo.1 vo.2) cond (zip valid_times other) in
  Some (zip df valid_times).

(** The chain of [get_clean_and_save_tornado_reports], from the table that
    [get_tornado_reports] loaded to the table that is written. *)
Definition get_clean_and_save_tornado_reports (df : DataFrame)
  : option (list (report * datetime64)) :=
  let df := drop_unknown_f_or_ef_scales df (-9) in
  let df := filter_non_central_time_reports df 3 in
  let df := filter_by_year df 1990 in
  find_valid_time df.

(** The same computation on one cell, for reasoning row by row. *)
Definition valid_time_cell (x : datetime64) : option datetime64 :=
  a ← dt_add x (Timedelta_H 6);
  b ← dt_ceil (Timedelta_H 12) a;
  c ← dt_add b (Timedelta_H 12);
  Some (where_ (ne_zero (dt_hour b)) b c).


(** [b] is [x] rounded up to the nearest multiple of [unit]. *)
Definition is_round_up (unit x b : Z) : Prop :=
  (unit | b) ∧ x ≤ b ∧ ∀ m, (unit | m) → x ≤ m → b ≤ m.

(** The valid time that the specification assigns to an observation time:
    six hours later, rounded up to a 12-hour boundary, and twelve more
    hours when that boundary is at hour 0. *)
Definition valid_time_of (x v : datetime64) : Prop :=
  match x with
  | NaT => v = NaT
  | Timestamp t =>
      ∃ b, is_round_up (Timedelta_H 12) (t + Timedelta_H 6) b
           ∧ v = Timestamp (if hour_of b =? 0 then b + Timedelta_H 12 else b)
  end.

(** [v] is a timestamp strictly after [t], at 12:00:00 of its day. *)
Definition noon_after (t : Z) (v : datetime64) : Prop :=
  ∃ t', v = Timestamp t' ∧ t < t' ∧ hour_of t' = 12
        ∧ t' mod ns_per_day = Timedelta_H 12.

(** [v] is the first 12:00:00 that is at least six hours after [t]. *)
Definition first_noon (t : Z) (v : datetime64) : Prop :=
  ∃ t', v = Timestamp t'
        ∧ t' mod ns_per_day = Timedelta_H 12
        ∧ t + Timedelta_H 6 ≤ t' < t + Timedelta_H 30
        ∧ ∀ u, u mod ns_per_day = Timedelta_H 12 → t + Timedelta_H 6 ≤ u →
               t' ≤ u.

(** Observation times whose valid time is within the [int64] range. *)
Definition representable (x : datetime64) : Prop :=
  match x with
  | NaT => True
  | Timestamp t => Timestamp_min ≤ t ∧ t + Timedelta_H 30 ≤ Timestamp_max
  end.

End Data.


(** ** process_reforecast_data.py: the reforecast downloader and processor

    The module text does not load as it stands (a doubled comma in the
    worker's parameter list, [logging.get_logger], [help=] given to
    [click.argument]); the functions are embedded as their bodies are
    written, [logger] being a logger.  The module uses [os] and never
    imports it: the functions that look [os] up are embedded over the
    namespace they run in, and [module_names] is the namespace that the
    module's own top-level statements build. *)
Module Reforecast.
Import Python Calendar.
#[local] Open Scope float_scope.

Definition S3_BUCKET : string := "noaa-gefs-retrospective".
Definition BASE_S3_PREFIX : string := "GEFSv12/reforecast".
Definition DAYS_PREFIX (k : string) : string :=
  if String.eqb k "1-10" then "Days:1-10" else "Days:10-16".
Definition COMMON_COLUMNS_TO_DROP : list string := ["valid_time"; "surface"].

(** The names that the imports, assignments and definitions of the module
    bind, lines 2-23 and the five [def]s. *)
Definition module_names : namespace :=
  ["logging"; "pathlib"; "Iterable"; "Dict"; "TemporaryDirectory"; "s3fs";
   "click"; "np"; "pd"; "xr"; "Parallel"; "delayed"; "S3_BUCKET";
   "BASE_S3_PREFIX"; "DAYS_PREFIX"; "COMMON_COLUMNS_TO_DROP"; "logger";
   "create_selection_dict"; "reduce_dataset"; "try_to_open_grib_file";
   "download_and_process_grib"; "get_and_process_reforecast_data"].

(** [slice(start, stop)]. *)
Record slice (A : Type) := mkslice { start : A; stop : A }.
Arguments mkslice {A} start stop.
Arguments start {A} s.
Arguments stop {A} s.

(** The dictionary that [create_selection_dict] returns; a [pd.Timedelta]
    is its [int64] count of nanoseconds. *)
Record selection := mkselection {
  latitude : slice float;
  longitude : slice float;
  step : slice Z
}.

Section Selection.

(** [pd.Timedelta(f'{x} days')]: the text of the float [x] followed by
    [" days"], parsed by pandas into a duration.  pandas raises
    [ValueError] on a text that it cannot parse. *)
Variable Timedelta_days : float -> result Z.

Definition create_selection_dict
    (latitude_bounds longitude_bounds forecast_days_bounds : list float)
  : result selection :=
  bind (py_max latitude_bounds) (fun lat_hi =>
  bind (py_min latitude_bounds) (fun lat_lo =>
  let latitude_slice := mkslice lat_hi lat_lo in
  bind (py_min longitude_bounds) (fun lon_lo =>
  bind (py_max longitude_bounds) (fun lon_hi =>
  let longitude_slice := mkslice lon_lo lon_hi in
  bind (py_min forecast_days_bounds) (fun fd_lo =>
  bind (Timedelta_days fd_lo) (fun first_forecast_hour =>
  bind (py_max forecast_days_bounds) (fun fd_hi =>
  bind (Timedelta_days fd_hi) (fun last_forecast_hour =>
  let forecast_hour_slice := mkslice first_forecast_hour last_forecast_hour in
  Return (mkselection latitude_slice longitude_slice forecast_hour_slice))))))))).

End Selection.

(** C's [fmod(a, b)] on binary64: [a - n * b] for the integer [n] that is
    [a / b] rounded towards zero.  The result is exact; it has the sign of
    [a]. *)
Definition fmod (a b : float) : float :=
  match Prim2SF a, Prim2SF b with
  | S754_nan, _ | _, S754_nan => nan
  | S754_infinity _, _ | _, S754_zero _ => nan
  | S754_zero _, _ | _, S754_infinity _ => a
  | S754_finite sa ma ea, S754_finite _ mb eb =>
      let e := Z.min ea eb in
      let r := Z.rem (Z.pos ma * 2 ^ (ea - e)) (Z.pos mb * 2 ^ (eb - e)) in
      if (r =? 0)%Z then (if sa then neg_zero else zero)
      else SF2Prim (binary_normalize prec emax (if sa then - r else r) e false)
  end.

(** [np.mod(a, b)] on [float64], numpy's [npy_divmod]: the [fmod]
    remainder, moved by [b] when it is not zero and its sign differs from
    the sign of [b]; a zero remainder takes the sign of [b]. *)
Definition np_mod (a b : float) : float :=
  let mod_ := fmod a b in
  if is_zero b then mod_
  else if negb (is_zero mod_) then
    if xorb (b <? 0) (mod_ <? 0) then mod_ + b else mod_
  else if get_sign b then neg_zero else zero.

(** Line 143, on one longitude value. *)
Definition normalize_longitude (x : float) : float :=
  np_mod (x + 180) 360 - 180.

(** [pd.date_range(start, end, freq=f'{k}D')] on day numbers: the days
    [start], [start + k], ... that do not pass [end]; a zero stride
    raises. *)
Definition date_range (start_date end_date date_frequency : Z)
  : result (list Z) :=
  if (date_frequency =? 0)%Z then Raise ZeroDivisionError
  else
    let n := Z.to_nat ((end_date - start_date) / date_frequency + 1) in
    Return ((fun i => start_date + Z.of_nat i * date_frequency)%Z <$> seq 0 n).

(** [dt.strftime("%Y%m%d00")]. *)
Definition strftime_Ymd00 (dt : Z) : string :=
  let d := civil_from_days dt in
  pretty (year d) +:+ pad2 (month d) +:+ pad2 (day d) +:+ "00".

(** [dt.strftime("%Y/%Y%m%d00")]. *)
Definition strftime_Y_Ymd00 (dt : Z) : string :=
  pretty (year (civil_from_days dt)) +:+ "/" +:+ strftime_Ymd00 dt.

(** The key template of line 196. *)
Definition object_key (days : string) (dt : Z) (var_name member : string)
  : string :=
  S3_BUCKET +:+ "/" +:+ BASE_S3_PREFIX +:+ "/" +:+ strftime_Y_Ymd00 dt
    +:+ "/" +:+ member +:+ "/" +:+ days +:+ "/" +:+ var_name +:+ "_"
    +:+ strftime_Ymd00 dt +:+ "_" +:+ member +:+ ".grib2".

(** The three nested [for] clauses of the comprehension of lines 196-198. *)
Definition globbed_list_of (days : string) (dts : list Z)
    (var_names members : list string) : list string :=
  dt ← dts; var_name ← var_names; member ← members;
  [object_key days dt var_name member].

(** Lines 186-191: the three checks, in order. *)
Definition check_bounds
    (latitude_bounds longitude_bounds forecast_days_bounds : list float)
  : result unit :=
  bind (py_min latitude_bounds) (fun lat_lo =>
  bind (py_max latitude_bounds) (fun lat_hi =>
  if negb (gtb lat_lo (-90) && (lat_hi <? 90)) then
    Raise (ValueError "Latitude bounds need to be within -90 and 90, got: "
             latitude_bounds)
  else
  bind (py_min longitude_bounds) (fun lon_lo =>
  bind (py_max longitude_bounds) (fun lon_hi =>
  if negb (geb lon_lo 0 && (lon_hi <? 360)) then
    Raise (ValueError "Longitude bounds must be positive and between 0-360 got: "
             longitude_bounds)
  else
  bind (py_min forecast_days_bounds) (fun fd_lo =>
  bind (py_max forecast_days_bounds) (fun fd_hi =>
  if negb (geb fd_lo 0 && (fd_hi <=? 16)) then
    Raise (ValueError "Forecast hour bounds must be between 0-16 days, got: "
             forecast_days_bounds)
  else Return tt)))))).

(** Lines 185-198 of [get_and_process_reforecast_data]: the checks, the
    choice of the horizon label and the list of object keys that line 201
    hands to the worker pool. *)
Definition enumerate_object_keys
    (start_date end_date date_frequency : Z)
    (members var_names : list string)
    (latitude_bounds longitude_bounds forecast_days_bounds : list float)
  : result (list string) :=
  bind (check_bounds latitude_bounds longitude_bounds forecast_days_bounds)
    (fun _ =>
  bind (py_max forecast_days_bounds) (fun fd_hi =>
  let days := if fd_hi <? 10 then DAYS_PREFIX "1-10"
              else DAYS_PREFIX "10-16" in
  bind (date_range start_date end_date date_frequency) (fun dts =>
  Return (globbed_list_of days dts var_names members)))).

(** Python's [==] on the slices of a selection dictionary whose bounds are
    distinct objects: [==] of the floats, equality of the durations. *)
Definition selection_eq (d1 d2 : selection) : Prop :=
  (start (latitude d1) =? start (latitude d2)) = true
  ∧ (stop (latitude d1) =? stop (latitude d2)) = true
  ∧ (start (longitude d1) =? start (longitude d2)) = true
  ∧ (stop (longitude d1) =? stop (longitude d2)) = true
  ∧ step d1 = step d2.

(** The same outcome of two calls: the same exception, or descriptors that
    are [==]. *)
Definition same_outcome (r1 r2 : result selection) : Prop :=
  match r1, r2 with
  | Return d1, Return d2 => selection_eq d1 d2
  | Raise e1, Raise e2 => e1 = e2
  | _, _ => False
  end.

(** A pair of bounds in one of its two orders. *)
Definition ordered (swap : bool) (a b : float) : list float :=
  if swap then [b; a] else [a; b].

(** The ranges that the comparisons of lines 186-191 test, on one bound. *)
Definition latitude_accepted (x : float) : Prop :=
  gtb x (-90) = true ∧ (x <? 90) = true.
Definition longitude_accepted (x : float) : Prop :=
  geb x 0 = true ∧ (x <? 360) = true.
Definition forecast_days_accepted (x : float) : Prop :=
  geb x 0 = true ∧ (x <=? 16) = true.

(** The latitude range of the specification. *)
Definition latitude_documented (x : float) : Prop :=
  geb x (-90) = true ∧ (x <=? 90) = true.

(** What [min] and [max] let through: the first bound of the pair is in
    the range, and the second is in the range or is NaN. *)
Definition pair_accepted (P : float -> Prop) (a b : float) : Prop :=
  P a ∧ (P b ∨ is_nan b = true).

(** [m] is a bound of the pair [a], [b] that neither bound is below
    ([is_min]) or above ([is_max]). *)
Definition is_min (m a b : float) : Prop :=
  (m = a ∨ m = b) ∧ (m <=? a) = true ∧ (m <=? b) = true.
Definition is_max (m a b : float) : Prop :=
  (m = a ∨ m = b) ∧ (a <=? m) = true ∧ (b <=? m) = true.

(** [m] is an item of the sequence [l] that no item is below ([least]) or
    above ([greatest]). *)
Definition least (m : float) (l : list float) : Prop :=
  m ∈ l ∧ ∀ x, x ∈ l → (m <=? x) = true.
Definition greatest (m : float) (l : list float) : Prop :=
  m ∈ l ∧ ∀ x, x ∈ l → (x <=? m) = true.


(** The quarter-degree grid: the [count] longitudes [first / 4],
    [(first + 1) / 4], ... *)
Definition quarter_degrees (first : Z) (count : nat) : list float :=
  (fun k => SF2Prim (binary_normalize prec emax (first + Z.of_nat k) (-2) false))
    <$> seq 0 count.

(** *** The per-object worker

    The worker reads the local file system, the object store and the
    pandas/xarray/cfgrib libraries.  The library calls of the worker's body
    are the fields of [library]; each one either returns or raises, [None]
    standing for any [Exception]. *)
Section Worker.
Context {Dataset bytes : Type}.

Record library := mklibrary {
  (* [pd.Timedelta(f'{x} days')], lines 46-47 *)
  pandas_Timedelta_days : float -> result Z;
  (* [TemporaryDirectory()]: the directory created, line 135 *)
  TemporaryDirectory : option string;
  (* [fs.open(key, 'rb')] and [f.read()], lines 137-138 *)
  s3_read : string -> option bytes;
  (* [open(grib_file, 'wb')] and [f2.write(...)], lines 137-138 *)
  write_grib : string -> bytes -> option unit;
  (* [xr.open_dataset(path, engine='cfgrib')], line 89 *)
  open_dataset : string -> bytes -> option Dataset;
  (* [cfgrib.open_datasets(path)], line 93 *)
  open_datasets : string -> bytes -> option (list Dataset);
  (* [xr.combine_by_coords(ds)], line 94 *)
  combine_by_coords : list Dataset -> option Dataset;
  (* [ds.sel(selection_dict)], line 142 *)
  sel : Dataset -> selection -> option Dataset;
  (* [ds['longitude'].values], a [float64] array, and the assignment of
     line 143 *)
  longitude_values : Dataset -> option (list float);
  set_longitude : Dataset -> list float -> option Dataset;
  (* [ds.assign(time=ds.time + ds['step'].max())], line 144 *)
  shift_time : Dataset -> option Dataset;
  (* [ds.sum('step')], [ds.mean('step')], lines 146 and 148 *)
  sum_step : Dataset -> option Dataset;
  mean_step : Dataset -> option Dataset;
  (* [ds.expand_dims(name, axis=k)], lines 150 and 152 *)
  expand_dims : string -> nat -> Dataset -> option Dataset;
  (* ['isobaricInhPa' in ds.coords], line 151 *)
  has_coord : string -> Dataset -> bool;
  (* the loop of lines 154-155 *)
  astype_float32 : Dataset -> option Dataset;
  (* [ds.drop(names, errors='ignore')], line 156 *)
  drop : list string -> Dataset -> option Dataset;
  (* [ds.to_netcdf(path, compute=True)], line 157: [true] when the file
     was written *)
  to_netcdf : string -> Dataset -> bool
}.

(** What the worker does to its surroundings, in order. *)
Inductive event :=
| Fetched (key : string)
| Saved (path : string)
| Logged (msg : string).

(** The local files under the save directory and the events so far. *)
Record world := mkworld {
  files : gmap string Dataset;
  events : list event
}.

Definition emit (e : event) (w : world) : world :=
  mkworld (files w) (events w ++ [e]).

Variable lib : library.

(** The namespace of the module when its functions are called. *)
Variable names : namespace.

(** [try_to_open_grib_file]: both decoders failing is logged and [None]
    is returned. *)
Definition try_to_open_grib_file (path : string) (content : bytes)
    (w : world) : option Dataset * world :=
  match open_dataset lib path content with
  | Some ds => (Some ds, w)
  | None =>
      match open_datasets lib path content ≫= combine_by_coords lib with
      | Some ds => (Some ds, w)
      | None =>
          (None, emit (Logged ("Oh no! There was a problem opening up "
                                 +:+ path)) w)
      end
  end.

(** Lines 142-156, any of which may raise. *)
Definition process (base_file_name : string) (selection_dict : selection)
    (ds : Dataset) : option Dataset :=
  ds ← sel lib ds selection_dict;
  lons ← longitude_values lib ds;
  ds ← set_longitude lib ds (normalize_longitude <$> lons);
  ds ← shift_time lib ds;
  ds ← (if contains "pcp" base_file_name then sum_step lib ds
        else mean_step lib ds);
  ds ← expand_dims lib "time" 0 ds;
  ds ← expand_dims lib "number" 1 ds;
  ds ← (if has_coord lib "isobaricInhPa" ds
        then expand_dims lib "isobaricInhPa" 2 ds else Some ds);
  ds ← astype_float32 lib ds;
  drop lib COMMON_COLUMNS_TO_DROP ds.

(** [f'{base_file_name.split('.')[0]}.nc'], line 128. *)
Definition nc_name (base_file_name : string) : string :=
  List.hd "" (split "."%char base_file_name) +:+ ".nc".

(** Lines 127-128: the value of [saved_file_path].  [os] is looked up in
    the module's namespace. *)
Definition saved_file_path_of (s3_prefix save_dir : string) : result string :=
  let base_file_name := List.last (split "/"%char s3_prefix) "" in
  bind (global names "os") (fun _ =>
  Return (path_join save_dir (nc_name base_file_name))).

(** The outcome of the [try] block of lines 134-157. *)
Inductive attempt :=
| Failed (grib_file : option string)  (* raised; [grib_file] if bound *)
| NoDataset                           (* [return] of line 141 *)
| Written.                            (* fell through to line 161 *)

Definition try_block (s3_prefix base_file_name saved_file_path : string)
    (selection_dict : selection) (w : world) : attempt * world :=
  match TemporaryDirectory lib with
  | None => (Failed None, w)
  | Some t =>
      match global names "os" with
      | Raise _ => (Failed None, w)
      | Return _ =>
      let grib_file := path_join t base_file_name in
      let w := emit (Fetched s3_prefix) w in
      match s3_read lib s3_prefix
            ≫= (fun data => write_grib lib grib_file data ≫= fun _ => Some data)
      with
      | None => (Failed (Some grib_file), w)
      | Some data =>
          match try_to_open_grib_file grib_file data w with
          | (None, w) => (NoDataset, w)
          | (Some ds, w) =>
              match process base_file_name selection_dict ds with
              | None => (Failed (Some grib_file), w)
              | Some ds =>
                  if to_netcdf lib saved_file_path ds
                  then (Written,
                        emit (Saved saved_file_path)
                          (mkworld (<[saved_file_path := ds]> (files w))
                             (events w)))
                  else (Failed (Some grib_file), w)
              end
          end
      end
      end
  end.

(** [download_and_process_grib].  Line 128 raises when [os] is not bound,
    before the existence check of line 129.  [create_selection_dict] is
    called on line 132, outside the [try].
    [s3fs.S3FileSystem(anon=True)] of line 133 builds a handle and is no
    step of its own.  The handler of lines 158-160 formats [grib_file] into
    its message; when the block raised before line 136 bound it, the
    handler itself raises. *)
Definition download_and_process_grib (s3_prefix : string)
    (latitude_bounds longitude_bounds forecast_days_bounds : list float)
    (save_dir : string) (w : world) : result (option string) * world :=
  let base_file_name := List.last (split "/"%char s3_prefix) "" in
  match saved_file_path_of s3_prefix save_dir with
  | Raise e => (Raise e, w)
  | Return saved_file_path =>
  if decide (is_Some (files w !! saved_file_path)) then
    (Return (Some saved_file_path), w)
  else
    match create_selection_dict (pandas_Timedelta_days lib) latitude_bounds
            longitude_bounds forecast_days_bounds with
    | Raise e => (Raise e, w)
    | Return selection_dict =>
        match try_block s3_prefix base_file_name saved_file_path
                selection_dict w with
        | (Failed None, w) => (Raise (UnboundLocalError "grib_file"), w)
        | (Failed (Some grib_file), w) =>
            (Return None,
             emit (Logged ("Oh no! There was an issue processing "
                             +:+ grib_file)) w)
        | (NoDataset, w) => (Return None, w)
        | (Written, w) => (Return (Some saved_file_path), w)
        end
    end
  end.

(** An argument of a call, as the caller passes it. *)
Inductive argument := Str (s : string) | Bounds (b : list float).

(** A call of the worker with positional arguments: its five parameters
    have no defaults, so any other number of arguments raises
    [TypeError] before the body runs. *)
Definition call_download_and_process_grib (args : list argument)
    (w : world) : result (option string) * world :=
  match args with
  | [Str s3_prefix; Bounds latitude_bounds; Bounds longitude_bounds;
     Bounds forecast_days_bounds; Str save_dir] =>
      download_and_process_grib s3_prefix latitude_bounds longitude_bounds
        forecast_days_bounds save_dir w
  | _ =>
      (Raise (TypeError "download_and_process_grib() missing required positional arguments"), w)
  end.

(** [Parallel(...)(delayed(f)(x) for x in xs)], with the tasks taken in the
    order of the list: the first exception of a task is raised to the
    caller. *)
Fixpoint Parallel {A B} (f : A -> world -> result B * world) (xs : list A)
    (w : world) : result (list B) * world :=
  match xs with
  | [] => (Return [], w)
  | x :: xs =>
      match f x w with
      | (Raise e, w) => (Raise e, w)
      | (Return y, w) =>
          match Parallel f xs w with
          | (Raise e, w) => (Raise e, w)
          | (Return ys, w) => (Return (y :: ys), w)
          end
      end
  end.

(** Lines 203-204, [xr.open_mfdataset(os.path.join(local_save_dir,
    '*.nc'), ...)] and the write of the merged file, on the local files:
    whatever they return or raise. *)
Variable open_mfdataset_and_save : string -> string -> world -> result unit.

(** [get_and_process_reforecast_data].  Line 201 calls the worker with
    the object key as its only argument. *)
Definition get_and_process_reforecast_data
    (start_date end_date date_frequency : Z)
    (members var_names : list string)
    (latitude_bounds longitude_bounds forecast_days_bounds : list float)
    (local_save_dir final_save_path : string) (w : world)
  : result unit * world :=
  match enumerate_object_keys start_date end_date date_frequency members
          var_names latitude_bounds longitude_bounds forecast_days_bounds
  with
  | Raise e => (Raise e, w)
  | Return globbed_list =>
      match Parallel (fun f => call_download_and_process_grib [Str f])
              globbed_list w with
      | (Raise e, w) => (Raise e, w)
      | (Return _, w) =>
          (open_mfdataset_and_save local_save_dir final_save_path w, w)
      end
  end.

End Worker.

(** The conversion of the runs below: the whole nanoseconds of [x] days
    for a finite [x], so that 5.5 days are 475200000000000 ns; it raises on
    NaN and on the infinities. *)
Definition whole_nanoseconds (x : float) : result Z :=
  match Prim2SF x with
  | S754_zero _ => Return 0%Z
  | S754_finite s m e =>
      let ns := Z.shiftl (Z.pos m * ns_per_day) e in
      Return (if s then - ns else ns)%Z
  | _ => Raise (ValueError "unit abbreviation w/o a number" [x])
  end.

(** A machine with no usable temporary directory: [TemporaryDirectory()]
    raises, every other library call returns. *)
Definition no_tmp_library : @library unit unit :=
  {| pandas_Timedelta_days := whole_nanoseconds;
     TemporaryDirectory := None;
     s3_read := fun _ => Some tt;
     write_grib := fun _ _ => Some tt;
     open_dataset := fun _ _ => Some tt;
     open_datasets := fun _ _ => Some [tt];
     combine_by_coords := fun _ => Some tt;
     sel := fun _ _ => Some tt;
     longitude_values := fun _ => Some [];
     set_longitude := fun _ _ => Some tt;
     shift_time := fun _ => Some tt;
     sum_step := fun _ => Some tt;
     mean_step := fun _ => Some tt;
     expand_dims := fun _ _ _ => Some tt;
     has_coord := fun _ _ => false;
     astype_float32 := fun _ => Some tt;
     drop := fun _ _ => Some tt;
     to_netcdf := fun _ _ => true |}.

(** A machine on which every library call returns, [pd.Timedelta] on
    finite days. *)
Definition plain_library : @library unit unit :=
  {| pandas_Timedelta_days := whole_nanoseconds;
     TemporaryDirectory := Some "/tmp/tmpq3x1";
     s3_read := fun _ => Some tt;
     write_grib := fun _ _ => Some tt;
     open_dataset := fun _ _ => Some tt;
     open_datasets := fun _ _ => Some [tt];
     combine_by_coords := fun _ => Some tt;
     sel := fun _ _ => Some tt;
     longitude_values := fun _ => Some [];
     set_longitude := fun _ _ => Some tt;
     shift_time := fun _ => Some tt;
     sum_step := fun _ => Some tt;
     mean_step := fun _ => Some tt;
     expand_dims := fun _ _ _ => Some tt;
     has_coord := fun _ _ => false;
     astype_float32 := fun _ => Some tt;
     drop := fun _ _ => Some tt;
     to_netcdf := fun _ _ => true |}.

End Reforecast.

(** ** download-GEFSV12-v0.1.py: the reanalysis bulk downloader *)
Module Download.
Import Python Calendar.

(** How one [ftp.retrbinary] call ends, with the bytes that reached the
    local file before it ended. *)
Inductive outcome :=
| Transferred (data : string)
| EOFError (partial : string)
| ConnectionResetError (partial : string).

Inductive event :=
| Connected                    (* [FTP(...)] and [ftp.login()] *)
| Removed (path : string)      (* [os.remove] *)
| Opened (path : string)       (* [open(path, 'wb')] *)
| Quit                         (* [ftp.quit()] *)
| Logged (msg : string).       (* [print_log] *)

(** The local data files with their contents, the local directories, the
    outcomes of the transfers still to come (once they are used up every
    transfer succeeds), and the events so far.  The log file that
    [print_log] appends to is kept apart from the data files. *)
Record world := mkworld {
  files : gmap string string;
  dirs : gset string;
  network : list outcome;
  events : list event
}.

Definition emit (e : event) (w : world) : world :=
  mkworld (files w) (dirs w) (network w) (events w ++ [e]).

Definition print_log (message : string) (w : world) : world :=
  emit (Logged message) w.

(** [os.path.exists] of a data file. *)
Definition exists_ (p : string) (w : world) : bool :=
  bool_decide (is_Some (files w !! p)).

Definition remove (p : string) (w : world) : world :=
  emit (Removed p) (mkworld (delete p (files w)) (dirs w) (network w) (events w)).

Definition write (p data : string) (w : world) : world :=
  mkworld (<[p := data]> (files w)) (dirs w) (network w) (events w).

Definition makedirs (p : string) (w : world) : world :=
  mkworld (files w) ({[p]} ∪ dirs w) (network w) (events w).

(** The next transfer of the session. *)
Definition next_outcome (w : world) : outcome * world :=
  match network w with
  | [] => (Transferred "", w)
  | o :: os => (o, mkworld (files w) (dirs w) os (events w))
  end.

(** Line 31. *)
Definition date_path (curr_date : date) : string :=
  "GEFSv12/reanalysis/FV3_reanalysis/" +:+ pretty (year curr_date)
    +:+ "/" +:+ pad2 (month curr_date) +:+ "/" +:+ pad2 (day curr_date).

Definition inittime : list Z := [0; 6; 12; 18].

(** Line 35. *)
Definition filenames_of (curr_date : date) : list string :=
  (fun t => "gec00.t" +:+ pad2 t +:+ "z.pgrb2." +:+ pretty (year curr_date)
              +:+ pad2 (month curr_date) +:+ pad2 (day curr_date)
              +:+ ".0p25.f000") <$> inittime.

(** Lines 27-29, on day numbers. *)
Definition all_dates (start_time end_time : Z) : list Z :=
  (fun d => start_time + Z.of_nat d) <$> seq 0 (Z.to_nat (end_time - start_time + 1)).

(** The body of the loop of lines 36-61 for the file
    [p = path + "/" + filename].  [Some p] is the [return] of lines 55 and
    61 with [break_file = p].  [open(p, 'wb')] creates the file before the
    transfer starts; the speed figure of the log message is left out. *)
Definition download_file (break_file : option string) (p : string)
    (w : world) : option string * world :=
  let w := if exists_ p w && bool_decide (break_file = Some p)
           then remove p w else w in
  if exists_ p w then (None, w)
  else
    let w := emit (Opened p) (write p "" w) in
    match next_outcome w with
    | (Transferred data, w) =>
        let w := write p data w in
        let w := print_log (p +:+ "Download speed") w in
        (None, w)
    | (EOFError partial, w) =>
        let w := write p partial w in
        let w := print_log ("EOFError： FTP Server Disconnected" +:+ p) w in
        (Some p, w)
    | (ConnectionResetError partial, w) =>
        let w := write p partial w in
        let w := print_log
          ("ConnectionResetError: The remote host forced an existing connection to close" +:+ p) w in
        (Some p, w)
    end.

(** The loop of lines 36-61 over the files of one date. *)
Fixpoint download_files (break_file : option string) (paths : list string)
    (w : world) : option string * world :=
  match paths with
  | [] => (None, w)
  | p :: paths =>
      match download_file break_file p w with
      | (Some f, w) => (Some f, w)
      | (None, w) => download_files break_file paths w
      end
  end.

(** The files of one date, lines 31 and 35. *)
Definition paths_of (d : Z) : list string :=
  let curr_date := civil_from_days d in
  (fun filename => date_path curr_date +:+ "/" +:+ filename)
    <$> filenames_of curr_date.

(** The loop of lines 30-61 over the dates. *)
Fixpoint download_dates (break_file : option string) (dates : list Z)
    (w : world) : option string * world :=
  match dates with
  | [] => (None, w)
  | d :: dates =>
      let path := date_path (civil_from_days d) in
      let w := if bool_decide (path ∈ dirs w) then w else makedirs path w in
      match download_files break_file (paths_of d) w with
      | (Some f, w) => (Some f, w)
      | (None, w) => download_dates break_file dates w
      end
  end.

(** [download]: returns the pair [(break_file, flag)].  Opening the session
    (lines 22-24) and closing it (line 62) are taken to succeed; the name of
    the log file is left out, see [world]. *)
Definition download (start_time end_time : Z) (break_file : option string)
    (flag : bool) (w : world) : (option string * bool) * world :=
  let w := emit Connected w in
  match download_dates break_file (all_dates start_time end_time) w with
  | (Some f, w) => ((Some f, true), w)
  | (None, w) => ((None, false), emit Quit w)
  end.

(** The [while flag] loop of lines 70-73; [None] when [fuel] passes do not
    end it. *)
Fixpoint retry_loop (fuel : nat) (start_time end_time : Z)
    (break_file : option string) (flag : bool) (w : world)
  : option (option string * world) :=
  if flag then
    match fuel with
    | O => None
    | S fuel =>
        let '((break_file, flag), w) :=
          download start_time end_time break_file flag w in
        retry_loop fuel start_time end_time break_file flag
          (print_log "Reconnected ..." w)
    end
  else Some (break_file, w).

(** The script: lines 8-11 and 67-73. *)
Definition main (fuel : nat) (w : world) : option (option string * world) :=
  retry_loop fuel (days_from_civil 2004 1 1) (days_from_civil 2009 12 31)
    None true (print_log "Downloading ..." w).

(** The data files of the range, in the order of the two loops. *)
Definition all_paths (start_time end_time : Z) : list string :=
  all_dates start_time end_time ≫= paths_of.

(** The disconnects among the transfers still to come. *)
Definition is_disconnect (o : outcome) : bool :=
  match o with Transferred _ => false | _ => true end.

(** The bytes that a transfer left in the local file. *)
Definition received (o : outcome) : string :=
  match o with
  | Transferred data => data
  | EOFError partial | ConnectionResetError partial => partial
  end.

Definition disconnects (w : world) : nat :=
  length (List.filter is_disconnect (network w)).

(** What the transfers read and change: everything but the directories. *)
Definition data (w : world) : gmap string string * list outcome * list event :=
  (files w, network w, events w).

(** [e] deletes or rewrites the file [p]. *)
Definition touches (p : string) (e : event) : Prop :=
  e = Removed p ∨ e = Opened p.

(** The entry that [download] logs after a transfer of [p] that ran to its
    end; the speed figure is left out, see [download_file]. *)
Definition success_message (p : string) : string := p +:+ "Download speed".

(** In the events [evs], but for the file [x], the last opening of every
    file is followed at once by the success entry of the file: the last
    transfer into it ran to its end. *)
Definition transfers_done (x : option string) (evs : list event) : Prop :=
  ∀ p pre post, evs = pre ++ Opened p :: post → Opened p ∉ post →
    (∃ post', post = Logged (success_message p) :: post') ∨ x = Some p.

(** From [w0] to [w]: the events have grown by a sequence in which, but
    for the file [x], every last transfer ran to its end, and every file
    that is new was opened for writing. *)
Definition settled (w0 : world) (x : option string) (w : world) : Prop :=
  ∃ evs, events w = events w0 ++ evs
    ∧ transfers_done x evs
    ∧ ∀ q, files w0 !! q = None → is_Some (files w !! q) → Opened q ∈ evs.

End Download.
Section DataFacts.
Import Calendar Data.

Lemma ns_per_hour_eq : ns_per_hour = 3600000000000.
Proof. reflexivity. Qed.

Lemma ceil_ns_round_up unit x : 0 < unit → is_round_up unit x (ceil_ns x unit).
Proof.
  intros Hu. unfold is_round_up, ceil_ns. split; [|split].
  - exists (- ((- x) / unit)).
    pose proof (Z.div_mod (- x) unit ltac:(lia)). lia.
  - pose proof (Z.mod_pos_bound (- x) unit Hu). lia.
  - intros m [k ->] Hx.
    pose proof (Z.mod_pos_bound (- x) unit Hu).
    pose proof (Z.div_mod (- x) unit ltac:(lia)).
    assert (x + (- x) mod unit = (- ((- x) / unit)) * unit) as -> by lia.
    apply Z.mul_le_mono_nonneg_r; [lia|].
    nia.
Qed.

Lemma ceil_ns_lt unit x : 0 < unit → ceil_ns x unit < x + unit.
Proof. intros Hu. unfold ceil_ns. pose proof (Z.mod_pos_bound (- x) unit Hu). lia. Qed.

Lemma is_round_up_unique unit x b b' :
  is_round_up unit x b → is_round_up unit x b' → b = b'.
Proof. intros (D & L & M) (D' & L' & M'). pose proof (M _ D' L'). pose proof (M' _ D L). lia. Qed.

Lemma hour_of_half_day b :
  (Timedelta_H 12 | b) →
  (hour_of b = 0 ∧ hour_of (b + Timedelta_H 12) = 12
     ∧ (b + Timedelta_H 12) mod ns_per_day = Timedelta_H 12)
  ∨ (hour_of b = 12 ∧ b mod ns_per_day = Timedelta_H 12).
Proof.
  intros [k ->]. unfold hour_of, Timedelta_H, ns_per_day.
  rewrite ns_per_hour_eq.
  destruct (Z.even k) eqn:E.
  - left. apply Z.even_spec in E as [j ->].
    repeat split.
    + replace (2 * j * (12 * 3600000000000)) with ((24 * j) * 3600000000000) by lia.
      rewrite Z.div_mul by lia. replace (24 * j) with (j * 24) by lia. apply Z.mod_mul. lia.
    + replace (2 * j * (12 * 3600000000000) + 12 * 3600000000000) with ((12 + j * 24) * 3600000000000) by lia.
      rewrite Z.div_mul by lia. rewrite Z.mod_add by lia. reflexivity.
    + replace (2 * j * (12 * 3600000000000) + 12 * 3600000000000) with (12 * 3600000000000 + j * (24 * 3600000000000)) by lia.
      rewrite Z.mod_add by lia. reflexivity.
  - right. assert (Z.odd k = true) as O by (rewrite <- Z.negb_even, E; reflexivity).
    apply Z.odd_spec in O as [j ->]. split.
    + replace ((2 * j + 1) * (12 * 3600000000000)) with ((12 + j * 24) * 3600000000000) by lia.
      rewrite Z.div_mul by lia. rewrite Z.mod_add by lia. reflexivity.
    + replace ((2 * j + 1) * (12 * 3600000000000)) with (12 * 3600000000000 + j * (24 * 3600000000000)) by lia.
      rewrite Z.mod_add by lia. reflexivity.
Qed.

Lemma Timedelta_H_12_pos : 0 < Timedelta_H 12.
Proof. reflexivity. Qed.

(** The column-wise computation is the cell-wise one. *)
Lemma valid_time_columns cells :
  (shifted ← mapM (fun x => dt_add x (Timedelta_H 6)) cells;
   valid_times ← mapM (dt_ceil (Timedelta_H 12)) shifted;
   other ← mapM (fun x => dt_add x (Timedelta_H 12)) valid_times;
   Some (zip_with (fun c vo => where_ c vo.1 vo.2)
           ((fun v => ne_zero (dt_hour v)) <$> valid_times)
           (zip valid_times other)))
  = mapM valid_time_cell cells.
Proof.
  induction cells as [|x cells IH]; [reflexivity|].
  cbn [mapM].
  set (R := mapM valid_time_cell cells) in *.
  unfold valid_time_cell.
  destruct (dt_add x (Timedelta_H 6)) as [a|]; [|reflexivity].
  cbn [mbind option_bind mret option_ret] in *.
  destruct (mapM (λ x, dt_add x (Timedelta_H 6)) cells) as [sh|]; cbn in IH |- *.
  2:{ rewrite <- IH. destruct (dt_ceil (Timedelta_H 12) a) as [b|]; [|reflexivity]. cbn.
      destruct (dt_add b (Timedelta_H 12)); reflexivity. }
  destruct (dt_ceil (Timedelta_H 12) a) as [b|]; [|reflexivity]. cbn.
  destruct (mapM (dt_ceil (Timedelta_H 12)) sh) as [vt|]; cbn in IH |- *.
  2:{ rewrite <- IH. destruct (dt_add b (Timedelta_H 12)); reflexivity. }
  destruct (dt_add b (Timedelta_H 12)) as [c|]; [|reflexivity]. cbn.
  destruct (mapM (λ x, dt_add x (Timedelta_H 12)) vt) as [ot|]; cbn in IH |- *.
  2:{ rewrite <- IH. reflexivity. }
  rewrite <- IH. reflexivity.
Qed.

Lemma find_valid_time_cells df :
  find_valid_time df
  = vs ← mapM valid_time_cell (observation_datetime <$> df); Some (zip df vs).
Proof.
  rewrite <- valid_time_columns. unfold find_valid_time.
  destruct (mapM _ (observation_datetime <$> df)) as [sh|]; [|reflexivity]. cbn.
  destruct (mapM _ sh) as [vt|]; [|reflexivity]. cbn.
  destruct (mapM _ vt) as [ot|]; reflexivity.
Qed.

Lemma valid_time_cell_spec x v :
  valid_time_cell x = Some v → valid_time_of x v.
Proof.
  unfold valid_time_cell. destruct x as [|t]; cbn.
  - intros [= <-]. reflexivity.
  - destruct (in_bounds (t + Timedelta_H 6)); [|discriminate]. cbn.
    destruct (in_bounds (ceil_ns _ _)); [|discriminate]. cbn.
    destruct (in_bounds (ceil_ns _ _ + _)); [|discriminate]. cbn.
    intros [= <-]. eexists. split; [apply ceil_ns_round_up, Timedelta_H_12_pos|].
    unfold where_. destruct (_ =? 0); reflexivity.
Qed.

Lemma in_bounds_true z :
  Timestamp_min ≤ z ≤ Timestamp_max → in_bounds z = true.
Proof. intros. unfold in_bounds. apply andb_true_iff; split; lia. Qed.

Lemma valid_time_cell_total x :
  representable x → is_Some (valid_time_cell x).
Proof.
  unfold valid_time_cell, representable. destruct x as [|t]; cbn; [eauto|].
  intros [Hlo Hhi].
  pose proof (ceil_ns_round_up (Timedelta_H 12) (t + Timedelta_H 6) Timedelta_H_12_pos) as (_ & Hle & _).
  pose proof (ceil_ns_lt (Timedelta_H 12) (t + Timedelta_H 6) Timedelta_H_12_pos) as Hlt.
  assert (Timedelta_H 6 = 6 * 3600000000000) as E6 by reflexivity.
  assert (Timedelta_H 12 = 12 * 3600000000000) as E12 by reflexivity.
  assert (Timedelta_H 30 = 30 * 3600000000000) as E30 by reflexivity.
  assert (Timestamp_min < 0 < Timestamp_max) by (split; reflexivity).
  rewrite (in_bounds_true (t + Timedelta_H 6)) by lia. cbn.
  rewrite (in_bounds_true (ceil_ns _ _)) by lia. cbn.
  rewrite (in_bounds_true (ceil_ns _ _ + _)) by lia. cbn. eauto.
Qed.

Lemma valid_time_of_noon x v :
  valid_time_of x v →
  match x with
  | NaT => v = NaT
  | Timestamp t =>
      ∃ t', v = Timestamp t' ∧ t < t' ∧ hour_of t' = 12
            ∧ t' mod ns_per_day = Timedelta_H 12
  end.
Proof.
  destruct x as [|t]; [trivial|]. intros (b & (D & L & _) & ->).
  destruct (hour_of_half_day b D) as [(H0 & H12 & M)|(H12 & M)].
  - rewrite H0. cbn. eexists; split; [reflexivity|]. repeat split; try assumption.
    unfold Timedelta_H in *; rewrite ns_per_hour_eq in *; lia.
  - rewrite H12. cbn. eexists; split; [reflexivity|]. repeat split; try assumption.
    unfold Timedelta_H in *; rewrite ns_per_hour_eq in *; lia.
Qed.

Lemma find_valid_time_rows df vts :
  find_valid_time df = Some vts ↔
  Forall2 (fun r rv => rv.1 = r ∧ valid_time_cell (observation_datetime r) = Some rv.2) df vts.
Proof.
  rewrite find_valid_time_cells. split.
  - destruct (mapM _ _) as [vs|] eqn:E; [|discriminate]. cbn. intros [= <-].
    apply mapM_Some in E. revert vs E.
    induction df as [|r df IH]; intros vs E; inversion E; subst; cbn; constructor; auto.
  - intros F.
    assert (mapM valid_time_cell (observation_datetime <$> df) = Some (vts.*2) ∧ zip df (vts.*2) = vts) as [E1 E2]; [|rewrite E1; cbn; rewrite E2; reflexivity].
    induction F as [|r [r' v] df vts [Hr Hv] F [IH1 IH2]]; [split; reflexivity|].
    cbn in *. subst r'. rewrite Hv. cbn. rewrite IH1. cbn. rewrite IH2. split; reflexivity.
Qed.

Lemma valid_time_of_hour x v :
  valid_time_of x v → dt_hour v ≠ Some 0.
Proof.
  intros H. apply valid_time_of_noon in H. destruct x as [|t].
  - subst v. discriminate.
  - destruct H as (t' & -> & _ & H12 & _). cbn. rewrite H12. discriminate.
Qed.

Lemma find_valid_time_sound df vts :
  find_valid_time df = Some vts →
  Forall2 (fun r rv => rv.1 = r ∧ valid_time_of (observation_datetime r) rv.2) df vts.
Proof.
  intros H. apply find_valid_time_rows in H.
  eapply Forall2_impl; [exact H|]. cbn. intros r rv [-> Hc]. split; [reflexivity|].
  apply valid_time_cell_spec, Hc.
Qed.

Lemma find_valid_time_total df :
  Forall (fun r => representable (observation_datetime r)) df →
  is_Some (find_valid_time df).
Proof.
  intros H. rewrite find_valid_time_cells.
  assert (is_Some (mapM valid_time_cell (observation_datetime <$> df))) as [vs ->];
    [|cbn; eauto].
  induction H as [|r df Hr _ [vs IH]]; [cbn; eauto|].
  cbn. destruct (valid_time_cell_total _ Hr) as [v ->]. cbn.
  rewrite IH. cbn. eauto.
Qed.

(** C1. For every row of the table, the valid time that [find_valid_time]
    attaches is the observation time plus six hours, rounded up to the
    nearest 12-hour boundary and pushed twelve hours further when that
    boundary is at hour 0; the function returns for every table whose
    valid times are representable; 2016-05-18T05:00Z gives
    2016-05-18T12:00Z, 2016-05-18T15:00Z gives 2016-05-19T12:00Z, and no
    valid time has hour 0. *)
Theorem find_valid_time_rounds_up :
  (∀ df, Forall (fun r => representable (observation_datetime r)) df →
     ∃ vts, find_valid_time df = Some vts)
  ∧ (∀ df vts, find_valid_time df = Some vts →
       Forall2 (fun r rv => rv.1 = r
                  ∧ valid_time_of (observation_datetime r) rv.2) df vts
       ∧ Forall (fun rv => dt_hour rv.2 ≠ Some 0) vts)
  ∧ (∀ mag tz,
       let r := mkreport mag tz (Timestamp (utc 2016 5 18 5 0)) in
       find_valid_time [r] = Some [(r, Timestamp (utc 2016 5 18 12 0))])
  ∧ (∀ mag tz,
       let r := mkreport mag tz (Timestamp (utc 2016 5 18 15 0)) in
       find_valid_time [r] = Some [(r, Timestamp (utc 2016 5 19 12 0))]).
Proof.
  split; [|split; [|split]].
  - intros df H. apply find_valid_time_total, H.
  - intros df vts H. apply find_valid_time_sound in H. split; [exact H|].
    clear -H. induction H as [|r rv df vts [_ Hv] _ IH]; constructor; [|exact IH].
    eapply valid_time_of_hour, Hv.
  - intros mag tz. vm_compute. reflexivity.
  - intros mag tz. vm_compute. reflexivity.
Qed.

Lemma find_valid_time_rounds_up_witness :
  let r := mkreport 3 3 (Timestamp (utc 1999 5 3 23 30)) in
  (∃ vts, find_valid_time [r] = Some vts)
  ∧ Forall2 (fun r rv => rv.1 = r
               ∧ valid_time_of (observation_datetime r) rv.2)
      [r] [(r, Timestamp (utc 1999 5 4 12 0))].
Proof.
  intros r. split.
  - apply (proj1 find_valid_time_rounds_up [r]).
    constructor; [|constructor]. vm_compute. split; discriminate.
  - apply (proj1 (proj2 find_valid_time_rounds_up) [r]). vm_compute. reflexivity.
Defined.

Lemma Forall_filter_keeps {A} (P Q : A → Prop) `{∀ x, Decision (Q x)}
    (l : list A) :
  Forall P l → Forall P (filter Q l).
Proof.
  rewrite !Forall_forall. intros H' x Hx.
  apply list_elem_of_filter in Hx as [_ Hx]. auto.
Qed.

(** C9. [find_valid_time] gives every row of its table a valid time, row
    by row; the valid time of a row with a timestamp is strictly later than
    the timestamp and falls at 12:00:00 exactly.  The cleaning chain keeps
    the rows that pass its three filters, in order, each of them with a
    timestamp and such a valid time; both return for every table whose
    valid times are representable. *)
Theorem find_valid_time_noon :
  (∀ df, Forall (fun r => representable (observation_datetime r)) df →
     ∃ vts, find_valid_time df = Some vts)
  ∧ (∀ df vts, find_valid_time df = Some vts →
       Forall2 (fun r rv => rv.1 = r
                  ∧ ∀ t, observation_datetime r = Timestamp t →
                         noon_after t rv.2) df vts)
  ∧ (∀ df, Forall (fun r => representable (observation_datetime r)) df →
       ∃ out, get_clean_and_save_tornado_reports df = Some out)
  ∧ (∀ df out, get_clean_and_save_tornado_reports df = Some out →
       Forall2 (fun r rv => rv.1 = r
                  ∧ ∃ t, observation_datetime r = Timestamp t
                         ∧ noon_after t rv.2)
         (filter_by_year
            (filter_non_central_time_reports
               (drop_unknown_f_or_ef_scales df (-9)) 3) 1990)
         out).
Proof.
  assert (∀ df vts, find_valid_time df = Some vts →
       Forall2 (fun r rv => rv.1 = r
                  ∧ ∀ t, observation_datetime r = Timestamp t →
                         noon_after t rv.2) df vts) as Hrows.
  { intros df vts H. apply find_valid_time_sound in H.
    eapply Forall2_impl; [exact H|]. cbn. intros r rv [-> Hv].
    split; [reflexivity|]. intros t Ht.
    apply valid_time_of_noon in Hv. rewrite Ht in Hv. exact Hv. }
  split; [|split; [|split]].
  - intros df H. apply find_valid_time_total, H.
  - exact Hrows.
  - intros df H. unfold get_clean_and_save_tornado_reports.
    apply find_valid_time_total.
    unfold filter_by_year, filter_non_central_time_reports,
      drop_unknown_f_or_ef_scales.
    do 3 apply Forall_filter_keeps. exact H.
  - intros df out H. unfold get_clean_and_save_tornado_reports in H.
    pose proof (Hrows _ _ H) as F.
    set (kept := filter_by_year _ 1990) in *.
    assert (Forall (fun r => ge_year (dt_year (observation_datetime r)) 1990
                             = true) kept) as Hy.
    { apply Forall_forall. intros r Hr. subst kept. unfold filter_by_year in Hr.
      apply list_elem_of_filter in Hr as [Hr _]. exact Hr. }
    clearbody kept. clear H.
    induction F as [|r rv df' out' [Hr Hv] F IH]; [constructor|].
    apply Forall_cons in Hy as [Hy Hys].
    constructor; [|apply IH, Hys]. split; [exact Hr|].
    destruct (observation_datetime r) as [|t] eqn:Ht; [discriminate Hy|].
    exists t. split; [reflexivity|]. apply Hv. reflexivity.
Qed.

Lemma find_valid_time_noon_witness :
  let r := mkreport 2 3 (Timestamp (utc 2011 4 27 21 10)) in
  (∃ vts, find_valid_time [r] = Some vts)
  ∧ find_valid_time [r] = Some [(r, Timestamp (utc 2011 4 28 12 0))]
  ∧ Forall2 (fun r rv => rv.1 = r
               ∧ ∀ t, observation_datetime r = Timestamp t →
                      noon_after t rv.2)
      [r] [(r, Timestamp (utc 2011 4 28 12 0))].
Proof.
  intros r. split; [|split].
  - apply (proj1 find_valid_time_noon [r]).
    constructor; [|constructor]. vm_compute. split; discriminate.
  - vm_compute. reflexivity.
  - apply (proj1 (proj2 find_valid_time_noon) [r]). vm_compute. reflexivity.
Defined.

End DataFacts.

Section FloatFacts.
Import Python.
#[local] Open Scope float_scope.

(** The order of binary64, on the values of [SpecFloat]. *)
Ltac finite_order :=
  repeat match goal with
  | H : context [(?a ?= ?b)%Z] |- _ => destruct (Z.compare_spec a b); cbn in H
  | H : context [Pos.compare_cont Eq ?a ?b] |- _ =>
      change (Pos.compare_cont Eq a b) with (a ?= b)%positive in H;
      destruct (Pos.compare_spec a b); cbn in H
  | |- context [(?a ?= ?b)%Z] => destruct (Z.compare_spec a b); cbn
  | |- context [Pos.compare_cont Eq ?a ?b] =>
      change (Pos.compare_cont Eq a b) with (a ?= b)%positive;
      destruct (Pos.compare_spec a b); cbn
  end; try congruence; try lia.

Lemma SFcompare_trans a b c :
  SFcompare a b = Some Lt → SFcompare b c = Some Lt → SFcompare a c = Some Lt.
Proof.
  destruct a as [sa|sa| |sa ma ea], b as [sb|sb| |sb mb eb],
    c as [sc|sc| |sc mc ec]; cbn; try congruence;
    try (destruct sa; cbn; congruence); try (destruct sb; cbn; congruence);
    try (destruct sc; cbn; congruence);
    try (destruct sa, sb; cbn; congruence);
    try (destruct sa, sc; cbn; congruence);
    try (destruct sb, sc; cbn; congruence).
  all: destruct sa, sb, sc; cbn; try congruence; intros H1 H2; finite_order.
Qed.

Lemma SFcompare_antisym a b c :
  SFcompare a b = Some c → SFcompare b a = Some (CompOpp c).
Proof.
  destruct a as [sa|sa| |sa ma ea], b as [sb|sb| |sb mb eb]; cbn;
    try congruence; try (destruct sa; cbn; intros [= <-]; reflexivity);
    try (destruct sb; cbn; intros [= <-]; reflexivity);
    try (destruct sa, sb; cbn; intros [= <-]; reflexivity);
    try (intros [= <-]; reflexivity).
  destruct sa, sb; cbn; intros [= <-]; try reflexivity; f_equal; finite_order.
Qed.

Lemma SFcompare_eq_l a b c :
  SFcompare a b = Some Eq → SFcompare a c = SFcompare b c.
Proof.
  destruct a as [sa|sa| |sa ma ea], b as [sb|sb| |sb mb eb]; cbn;
    try congruence; try (destruct sa; cbn; congruence);
    try (destruct sb; cbn; congruence).
  all: try (intros _; destruct c; reflexivity).
  all: try (destruct sa, sb; cbn; try congruence; intros _; destruct c;
            reflexivity).
  destruct sa, sb; cbn; try congruence; intros H; finite_order; subst;
    reflexivity.
Qed.

Lemma SFcompare_eq_r a b c :
  SFcompare a b = Some Eq → SFcompare c a = SFcompare c b.
Proof.
  intros H. pose proof (SFcompare_eq_l a b c H) as E.
  destruct (SFcompare c a) as [x|] eqn:Ea.
  - apply SFcompare_antisym in Ea. rewrite E in Ea.
    apply SFcompare_antisym in Ea. rewrite Ea. destruct x; reflexivity.
  - destruct (SFcompare c b) as [y|] eqn:Eb; [|reflexivity].
    apply SFcompare_antisym in Eb. rewrite <- E in Eb.
    apply SFcompare_antisym in Eb. congruence.
Qed.

Lemma SFcompare_None a b :
  SFcompare a b = None ↔ a = S754_nan ∨ b = S754_nan.
Proof.
  destruct a as [sa|sa| |sa ma ea], b as [sb|sb| |sb mb eb]; cbn;
    split; try tauto; try discriminate; intros [?|?]; discriminate.
Qed.

(** Python's comparisons of floats, through their values. *)
Lemma ltb_compare x y :
  (x <? y) = true ↔ SFcompare (Prim2SF x) (Prim2SF y) = Some Lt.
Proof.
  rewrite ltb_spec. unfold SFltb.
  destruct (SFcompare _ _) as [[]|]; split; congruence.
Qed.

Lemma leb_compare x y :
  (x <=? y) = true
  ↔ SFcompare (Prim2SF x) (Prim2SF y) = Some Lt
    ∨ SFcompare (Prim2SF x) (Prim2SF y) = Some Eq.
Proof.
  rewrite leb_spec. unfold SFleb.
  destruct (SFcompare _ _) as [[]|]; split; try tauto; try congruence;
    intros [?|?]; congruence.
Qed.

Lemma eqb_compare x y :
  (x =? y) = true ↔ SFcompare (Prim2SF x) (Prim2SF y) = Some Eq.
Proof.
  rewrite eqb_spec. unfold SFeqb.
  destruct (SFcompare _ _) as [[]|]; split; congruence.
Qed.

Lemma is_nan_compare x y :
  is_nan x = true ∨ is_nan y = true
  ↔ SFcompare (Prim2SF x) (Prim2SF y) = None.
Proof.
  unfold is_nan. rewrite !negb_true_iff, <- !not_true_iff_false, !eqb_compare.
  rewrite SFcompare_None.
  assert (∀ a, SFcompare a a ≠ Some Eq ↔ a = S754_nan) as H.
  { intros [s|s| |s m e]; cbn; split; try congruence; try discriminate.
    - destruct s; congruence.
    - destruct s; rewrite Z.compare_refl, Pos.compare_cont_refl; cbn;
        congruence. }
  rewrite !H. reflexivity.
Qed.

Lemma ltb_trans x y z :
  (x <? y) = true → (y <? z) = true → (x <? z) = true.
Proof. rewrite !ltb_compare. apply SFcompare_trans. Qed.

Lemma ltb_leb x y : (x <? y) = true → (x <=? y) = true.
Proof. rewrite ltb_compare, leb_compare. auto. Qed.

Lemma leb_ltb_trans x y z :
  (x <=? y) = true → (y <? z) = true → (x <? z) = true.
Proof.
  rewrite leb_compare, !ltb_compare. intros [H|H] H'.
  - eapply SFcompare_trans; eassumption.
  - rewrite (SFcompare_eq_l _ _ _ H). exact H'.
Qed.

Lemma ltb_leb_trans x y z :
  (x <? y) = true → (y <=? z) = true → (x <? z) = true.
Proof.
  rewrite leb_compare, !ltb_compare. intros H [H'|H'].
  - eapply SFcompare_trans; eassumption.
  - rewrite <- (SFcompare_eq_r _ _ _ H'). exact H.
Qed.

Lemma leb_trans x y z :
  (x <=? y) = true → (y <=? z) = true → (x <=? z) = true.
Proof.
  intros H H'. pose proof H' as H''. apply leb_compare in H'' as [L|E].
  - apply ltb_leb. eapply leb_ltb_trans; [exact H|]. apply ltb_compare, L.
  - apply leb_compare. rewrite <- (SFcompare_eq_r _ _ _ E).
    apply leb_compare, H.
Qed.

Lemma ltb_asym x y : (x <? y) = true → (y <? x) = false.
Proof.
  rewrite ltb_compare. intros H. apply SFcompare_antisym in H.
  apply not_true_iff_false. rewrite ltb_compare, H. discriminate.
Qed.

Lemma leb_not_ltb x y : (x <=? y) = true → (y <? x) = false.
Proof.
  rewrite leb_compare. intros H.
  apply not_true_iff_false. rewrite ltb_compare.
  destruct H as [H|H]; apply SFcompare_antisym in H; rewrite H; discriminate.
Qed.

Lemma ltb_total x y :
  (x <? y) = false → (y <? x) = false →
  is_nan x = true ∨ is_nan y = true ∨ (x =? y) = true.
Proof.
  rewrite <- !not_true_iff_false, !ltb_compare, eqb_compare. intros H1 H2.
  destruct (SFcompare (Prim2SF x) (Prim2SF y)) as [[]|] eqn:E.
  - auto.
  - contradiction.
  - apply SFcompare_antisym in E. contradiction.
  - apply is_nan_compare in E. tauto.
Qed.

Lemma eqb_ltb_l x y z : (x =? y) = true → (x <? z) = (y <? z).
Proof.
  rewrite eqb_compare, !ltb_spec. unfold SFltb. intros H.
  rewrite (SFcompare_eq_l _ _ _ H). reflexivity.
Qed.

Lemma eqb_ltb_r x y z : (x =? y) = true → (z <? x) = (z <? y).
Proof.
  rewrite eqb_compare, !ltb_spec. unfold SFltb. intros H.
  rewrite (SFcompare_eq_r _ _ _ H). reflexivity.
Qed.

Lemma eqb_leb_l x y z : (x =? y) = true → (x <=? z) = (y <=? z).
Proof.
  rewrite eqb_compare, !leb_spec. unfold SFleb. intros H.
  rewrite (SFcompare_eq_l _ _ _ H). reflexivity.
Qed.

Lemma eqb_leb_r x y z : (x =? y) = true → (z <=? x) = (z <=? y).
Proof.
  rewrite eqb_compare, !leb_spec. unfold SFleb. intros H.
  rewrite (SFcompare_eq_r _ _ _ H). reflexivity.
Qed.

Lemma eqb_sym x y : (x =? y) = true → (y =? x) = true.
Proof.
  rewrite !eqb_compare. intros H. apply SFcompare_antisym in H. exact H.
Qed.

Lemma eqb_refl x : is_nan x = false → (x =? x) = true.
Proof. unfold is_nan. apply negb_false_iff. Qed.

Lemma eqb_leb x y : (x =? y) = true → (x <=? y) = true.
Proof. rewrite eqb_compare, leb_compare. auto. Qed.

Lemma nan_ltb_l x y : is_nan x = true → (x <? y) = false.
Proof.
  intros H. apply not_true_iff_false. rewrite ltb_compare.
  assert (SFcompare (Prim2SF x) (Prim2SF y) = None) as ->
    by (apply is_nan_compare; auto).
  discriminate.
Qed.

Lemma nan_ltb_r x y : is_nan y = true → (x <? y) = false.
Proof.
  intros H. apply not_true_iff_false. rewrite ltb_compare.
  assert (SFcompare (Prim2SF x) (Prim2SF y) = None) as ->
    by (apply is_nan_compare; auto).
  discriminate.
Qed.

Lemma nan_leb_l x y : is_nan x = true → (x <=? y) = false.
Proof.
  intros H. apply not_true_iff_false. rewrite leb_compare.
  assert (SFcompare (Prim2SF x) (Prim2SF y) = None) as ->
    by (apply is_nan_compare; auto).
  intros [?|?]; discriminate.
Qed.

Lemma nan_leb_r x y : is_nan y = true → (x <=? y) = false.
Proof.
  intros H. apply not_true_iff_false. rewrite leb_compare.
  assert (SFcompare (Prim2SF x) (Prim2SF y) = None) as ->
    by (apply is_nan_compare; auto).
  intros [?|?]; discriminate.
Qed.

(** [min] and [max] of a pair. *)
Lemma py_min_pair a b :
  py_min [a; b] = Return (if b <? a then b else a).
Proof. reflexivity. Qed.

Lemma py_max_pair a b :
  py_max [a; b] = Return (if gtb b a then b else a).
Proof. reflexivity. Qed.

(** A check [lower (min(a, b)) and upper (max(a, b))] of a pair, for a
    lower and an upper test that follow the order of the floats. *)
Section PairCheck.
Variables lower upper : float -> bool.
Hypothesis lower_up :
  ∀ x y, lower x = true → (x <? y) = true → lower y = true.
Hypothesis upper_down :
  ∀ x y, (x <? y) = true → upper y = true → upper x = true.
Hypothesis lower_eq : ∀ x y, (x =? y) = true → lower x = lower y.
Hypothesis upper_eq : ∀ x y, (x =? y) = true → upper x = upper y.
Hypothesis lower_nan : ∀ x, is_nan x = true → lower x = false.

Lemma pair_check a b :
  lower (if b <? a then b else a) && upper (if gtb b a then b else a) = true
  ↔ (lower a = true ∧ upper a = true)
    ∧ ((lower b = true ∧ upper b = true) ∨ is_nan b = true).
Proof.
  unfold gtb. rewrite andb_true_iff.
  destruct (b <? a) eqn:E1; destruct (a <? b) eqn:E2.
  - apply ltb_asym in E1. congruence.
  - split.
    + intros [Hl Hu]. pose proof (lower_up _ _ Hl E1).
      pose proof (upper_down _ _ E1 Hu). tauto.
    + intros [[Hl Hu] [[Hl' Hu']|N]]; [tauto|].
      rewrite (nan_ltb_l _ _ N) in E1. discriminate.
  - split.
    + intros [Hl Hu]. pose proof (lower_up _ _ Hl E2).
      pose proof (upper_down _ _ E2 Hu). tauto.
    + intros [[Hl Hu] [[Hl' Hu']|N]]; [tauto|].
      rewrite (nan_ltb_r _ _ N) in E2. discriminate.
  - split; [|tauto]. intros [Hl Hu]. split; [tauto|].
    destruct (ltb_total _ _ E2 E1) as [N|[N|E]].
    + rewrite (lower_nan _ N) in Hl. discriminate.
    + tauto.
    + left. rewrite <- (lower_eq _ _ E), <- (upper_eq _ _ E). tauto.
Qed.

End PairCheck.

End FloatFacts.
Section ReforecastFacts.
Import Python Calendar Reforecast.
#[local] Open Scope float_scope.
#[local] Set Warnings "-inexact-float".

Lemma leb_refl x : is_nan x = false → (x <=? x) = true.
Proof. intros N. apply eqb_leb, eqb_refl, N. Qed.

(** The minimum and the maximum of a pair free of NaN do not depend, up to
    [==], on the order of the pair. *)
Lemma py_min_ordered s a b :
  is_nan a = false → is_nan b = false →
  ∃ m, py_min (ordered s a b) = Return m
    ∧ is_min m a b
    ∧ ((if b <? a then b else a) =? m) = true.
Proof.
  intros Na Nb. unfold is_min.
  pose proof (leb_refl a Na) as Ra. pose proof (leb_refl b Nb) as Rb.
  pose proof (eqb_refl a Na) as Ea. pose proof (eqb_refl b Nb) as Eb.
  destruct s; cbn [ordered]; rewrite py_min_pair; eexists;
    (split; [reflexivity|]).
  - destruct (a <? b) eqn:E1; destruct (b <? a) eqn:E2.
    + apply ltb_asym in E1. congruence.
    + pose proof (ltb_leb _ _ E1). auto.
    + pose proof (ltb_leb _ _ E2). auto.
    + destruct (ltb_total _ _ E1 E2) as [N|[N|E]]; [congruence..|].
      pose proof (eqb_leb _ _ (eqb_sym _ _ E)). auto.
  - destruct (b <? a) eqn:E2.
    + pose proof (ltb_leb _ _ E2). auto.
    + destruct (a <? b) eqn:E1; [pose proof (ltb_leb _ _ E1); auto|].
      destruct (ltb_total _ _ E1 E2) as [N|[N|E]]; [congruence..|].
      pose proof (eqb_leb _ _ E). auto.
Qed.

Lemma py_max_ordered s a b :
  is_nan a = false → is_nan b = false →
  ∃ m, py_max (ordered s a b) = Return m
    ∧ is_max m a b
    ∧ ((if gtb b a then b else a) =? m) = true.
Proof.
  intros Na Nb. unfold is_max.
  pose proof (leb_refl a Na) as Ra. pose proof (leb_refl b Nb) as Rb.
  pose proof (eqb_refl a Na) as Ea. pose proof (eqb_refl b Nb) as Eb.
  destruct s; cbn [ordered]; rewrite py_max_pair; unfold gtb; eexists;
    (split; [reflexivity|]).
  - destruct (a <? b) eqn:E1; destruct (b <? a) eqn:E2.
    + apply ltb_asym in E1. congruence.
    + pose proof (ltb_leb _ _ E1). auto.
    + pose proof (ltb_leb _ _ E2). auto.
    + destruct (ltb_total _ _ E1 E2) as [N|[N|E]]; [congruence..|].
      pose proof (eqb_leb _ _ E). auto.
  - destruct (a <? b) eqn:E1.
    + pose proof (ltb_leb _ _ E1). auto.
    + destruct (b <? a) eqn:E2; [pose proof (ltb_leb _ _ E2); auto|].
      destruct (ltb_total _ _ E1 E2) as [N|[N|E]]; [congruence..|].
      pose proof (eqb_leb _ _ (eqb_sym _ _ E)). auto.
Qed.

Lemma is_min_max_leb lo hi a b :
  is_min lo a b → is_max hi a b → (lo <=? hi) = true.
Proof.
  intros (_ & La & _) (_ & Ha & _). eapply leb_trans; eassumption.
Qed.


Lemma create_selection_dict_pair td la1 la2 lo1 lo2 fd1 fd2 :
  create_selection_dict td [la1; la2] [lo1; lo2] [fd1; fd2]
  = bind (td (if fd2 <? fd1 then fd2 else fd1)) (fun first =>
    bind (td (if gtb fd2 fd1 then fd2 else fd1)) (fun last =>
    Return (mkselection
              (mkslice (if gtb la2 la1 then la2 else la1)
                 (if la2 <? la1 then la2 else la1))
              (mkslice (if lo2 <? lo1 then lo2 else lo1)
                 (if gtb lo2 lo1 then lo2 else lo1))
              (mkslice first last)))).
Proof. reflexivity. Qed.

(** C3, as the code has it.  For bounds free of NaN, in either order within
    each pair, [create_selection_dict] hands the least and the greatest
    forecast day to pandas and, when pandas converts both, returns the
    descriptor with the latitude slice from the maximum to the minimum, the
    longitude slice from the minimum to the maximum and the step slice from
    the duration of the least to the duration of the greatest forecast day;
    when pandas raises, it raises the same.  The outcome does not depend on
    the order of a pair when pandas gives [==] floats the same duration, and
    the durations ascend when pandas keeps the order of the floats. *)
Theorem create_selection_dict_canonical (td : float → result Z)
    (la1 la2 lo1 lo2 fd1 fd2 : float) (s1 s2 s3 : bool) :
  Forall (fun x => is_nan x = false) [la1; la2; lo1; lo2; fd1; fd2] →
  ∃ la_hi la_lo lo_lo lo_hi fd_lo fd_hi,
    (is_max la_hi la1 la2 ∧ is_min la_lo la1 la2
     ∧ is_min lo_lo lo1 lo2 ∧ is_max lo_hi lo1 lo2
     ∧ is_min fd_lo fd1 fd2 ∧ is_max fd_hi fd1 fd2)
    ∧ ((la_lo <=? la_hi) = true ∧ (lo_lo <=? lo_hi) = true
       ∧ (fd_lo <=? fd_hi) = true)
    ∧ create_selection_dict td (ordered s1 la1 la2) (ordered s2 lo1 lo2)
        (ordered s3 fd1 fd2)
      = bind (td fd_lo) (fun first =>
        bind (td fd_hi) (fun last =>
        Return (mkselection (mkslice la_hi la_lo) (mkslice lo_lo lo_hi)
                  (mkslice first last))))
    ∧ ((∀ x y, (x =? y) = true → td x = td y) →
       same_outcome
         (create_selection_dict td (ordered s1 la1 la2) (ordered s2 lo1 lo2)
            (ordered s3 fd1 fd2))
         (create_selection_dict td [la1; la2] [lo1; lo2] [fd1; fd2]))
    ∧ ((∀ x y a b, (x <=? y) = true → td x = Return a → td y = Return b →
                   (a ≤ b)%Z) →
       ∀ sd, create_selection_dict td (ordered s1 la1 la2) (ordered s2 lo1 lo2)
               (ordered s3 fd1 fd2) = Return sd →
             (start (step sd) ≤ stop (step sd))%Z).
Proof.
  intros N.
  assert (is_nan la1 = false ∧ is_nan la2 = false ∧ is_nan lo1 = false
          ∧ is_nan lo2 = false ∧ is_nan fd1 = false ∧ is_nan fd2 = false)
    as (Nla1 & Nla2 & Nlo1 & Nlo2 & Nfd1 & Nfd2).
  { repeat (apply Forall_cons in N as [? N]). auto 10. }
  destruct (py_max_ordered s1 la1 la2 Nla1 Nla2) as (la_hi & E1 & M1 & Q1).
  destruct (py_min_ordered s1 la1 la2 Nla1 Nla2) as (la_lo & E2 & M2 & Q2).
  destruct (py_min_ordered s2 lo1 lo2 Nlo1 Nlo2) as (lo_lo & E3 & M3 & Q3).
  destruct (py_max_ordered s2 lo1 lo2 Nlo1 Nlo2) as (lo_hi & E4 & M4 & Q4).
  destruct (py_min_ordered s3 fd1 fd2 Nfd1 Nfd2) as (fd_lo & E5 & M5 & Q5).
  destruct (py_max_ordered s3 fd1 fd2 Nfd1 Nfd2) as (fd_hi & E6 & M6 & Q6).
  assert (create_selection_dict td (ordered s1 la1 la2) (ordered s2 lo1 lo2)
            (ordered s3 fd1 fd2)
          = bind (td fd_lo) (fun first =>
            bind (td fd_hi) (fun last =>
            Return (mkselection (mkslice la_hi la_lo) (mkslice lo_lo lo_hi)
                      (mkslice first last))))) as E.
  { unfold create_selection_dict. rewrite E1, E2, E3, E4, E5, E6.
    reflexivity. }
  pose proof (is_min_max_leb _ _ _ _ M5 M6) as Lfd.
  exists la_hi, la_lo, lo_lo, lo_hi, fd_lo, fd_hi.
  split; [auto 10|]. split.
  { split; [|split]; [eapply is_min_max_leb; eassumption..|exact Lfd]. }
  split; [exact E|]. split.
  - intros Htd. rewrite E, create_selection_dict_pair.
    rewrite (Htd _ _ Q5), (Htd _ _ Q6).
    destruct (td fd_lo) as [first|e]; [|reflexivity]. cbn [bind].
    destruct (td fd_hi) as [last|e]; [|reflexivity]. cbn.
    unfold selection_eq. cbn. auto 10 using eqb_sym.
  - intros Hmono sd. rewrite E.
    destruct (td fd_lo) as [first|e] eqn:Tlo; [|discriminate]. cbn [bind].
    destruct (td fd_hi) as [last|e] eqn:Thi; [|discriminate]. cbn [bind].
    intros [= <-]. cbn. eapply Hmono; eassumption.
Qed.

Lemma create_selection_dict_canonical_witness :
  ∃ la_hi la_lo lo_lo lo_hi fd_lo fd_hi,
    (is_max la_hi 22 55 ∧ is_min la_lo 22 55
     ∧ is_min lo_lo 230 291 ∧ is_max lo_hi 230 291
     ∧ is_min fd_lo 5.5 6.5 ∧ is_max fd_hi 5.5 6.5)
    ∧ ((la_lo <=? la_hi) = true ∧ (lo_lo <=? lo_hi) = true
       ∧ (fd_lo <=? fd_hi) = true)
    ∧ create_selection_dict whole_nanoseconds [55; 22] [230; 291] [6.5; 5.5]
      = bind (whole_nanoseconds fd_lo) (fun first =>
        bind (whole_nanoseconds fd_hi) (fun last =>
        Return (mkselection (mkslice la_hi la_lo) (mkslice lo_lo lo_hi)
                  (mkslice first last))))
    ∧ ((∀ x y, (x =? y) = true → whole_nanoseconds x = whole_nanoseconds y) →
       same_outcome
         (create_selection_dict whole_nanoseconds [55; 22] [230; 291]
            [6.5; 5.5])
         (create_selection_dict whole_nanoseconds [22; 55] [230; 291]
            [5.5; 6.5]))
    ∧ ((∀ x y a b, (x <=? y) = true → whole_nanoseconds x = Return a →
                   whole_nanoseconds y = Return b → (a ≤ b)%Z) →
       ∀ sd, create_selection_dict whole_nanoseconds [55; 22] [230; 291]
               [6.5; 5.5] = Return sd →
             (start (step sd) ≤ stop (step sd))%Z).
Proof.
  apply (create_selection_dict_canonical whole_nanoseconds 22 55 230 291
           5.5 6.5 true false true).
  repeat constructor.
Defined.

(** C3, as the specification states it, fails on NaN: [max] and [min] keep
    their first item when a comparison with NaN is false, so whatever
    pandas does the latitude bounds (10, NaN) give the slice from 10 to 10
    and the bounds (NaN, 10) the slice from NaN to NaN, which are not [==];
    neither runs from the maximum to the minimum of the pair. *)
Lemma create_selection_dict_not_canonical :
  (∀ td, create_selection_dict td [10; nan] [230; 291] [5.5; 6.5]
         = bind (td 5.5) (fun first => bind (td 6.5) (fun last =>
           Return (mkselection (mkslice 10 10) (mkslice 230 291)
                     (mkslice first last)))))
  ∧ (∀ td, create_selection_dict td [nan; 10] [230; 291] [5.5; 6.5]
           = bind (td 5.5) (fun first => bind (td 6.5) (fun last =>
             Return (mkselection (mkslice nan nan) (mkslice 230 291)
                       (mkslice first last)))))
  ∧ (10 =? nan) = false
  ∧ create_selection_dict whole_nanoseconds [10; nan] [230; 291] [5.5; 6.5]
    = Return (mkselection (mkslice 10 10) (mkslice 230 291)
                (mkslice 475200000000000%Z 561600000000000%Z))
  ∧ create_selection_dict whole_nanoseconds [nan; 10] [230; 291] [5.5; 6.5]
    = Return (mkselection (mkslice nan nan) (mkslice 230 291)
                (mkslice 475200000000000%Z 561600000000000%Z)).
Proof.
  split; [|split; [|split; [|split]]]; try (intros td); reflexivity.
Qed.





Lemma check_bounds_pairs la1 la2 lo1 lo2 fd1 fd2 :
  check_bounds [la1; la2] [lo1; lo2] [fd1; fd2] =
    if negb (gtb (if la2 <? la1 then la2 else la1) (-90)
             && ((if gtb la2 la1 then la2 else la1) <? 90))
    then Raise (ValueError "Latitude bounds need to be within -90 and 90, got: "
                  [la1; la2])
    else if negb (geb (if lo2 <? lo1 then lo2 else lo1) 0
                  && ((if gtb lo2 lo1 then lo2 else lo1) <? 360))
    then Raise (ValueError "Longitude bounds must be positive and between 0-360 got: "
                  [lo1; lo2])
    else if negb (geb (if fd2 <? fd1 then fd2 else fd1) 0
                  && ((if gtb fd2 fd1 then fd2 else fd1) <=? 16))
    then Raise (ValueError "Forecast hour bounds must be between 0-16 days, got: "
                  [fd1; fd2])
    else Return tt.
Proof.
  unfold check_bounds. cbn.
  destruct (negb _); [reflexivity|]. destruct (negb _); reflexivity.
Qed.

Lemma latitude_check a b :
  gtb (if b <? a then b else a) (-90) && ((if gtb b a then b else a) <? 90)
  = true
  ↔ pair_accepted latitude_accepted a b.
Proof.
  unfold pair_accepted, latitude_accepted.
  apply (pair_check (fun x => gtb x (-90)) (fun x => x <? 90)); unfold gtb.
  - intros x y H1 H2. eapply ltb_trans; eassumption.
  - intros x y H1 H2. eapply ltb_trans; eassumption.
  - intros x y E. apply eqb_ltb_r, E.
  - intros x y E. apply eqb_ltb_l, E.
  - intros x N. apply nan_ltb_r, N.
Qed.

Lemma longitude_check a b :
  geb (if b <? a then b else a) 0 && ((if gtb b a then b else a) <? 360)
  = true
  ↔ pair_accepted longitude_accepted a b.
Proof.
  unfold pair_accepted, longitude_accepted.
  apply (pair_check (fun x => geb x 0) (fun x => x <? 360)); unfold geb.
  - intros x y H1 H2. apply ltb_leb. eapply leb_ltb_trans; eassumption.
  - intros x y H1 H2. eapply ltb_trans; eassumption.
  - intros x y E. apply eqb_leb_r, E.
  - intros x y E. apply eqb_ltb_l, E.
  - intros x N. apply nan_leb_r, N.
Qed.

Lemma forecast_days_check a b :
  geb (if b <? a then b else a) 0 && ((if gtb b a then b else a) <=? 16)
  = true
  ↔ pair_accepted forecast_days_accepted a b.
Proof.
  unfold pair_accepted, forecast_days_accepted.
  apply (pair_check (fun x => geb x 0) (fun x => x <=? 16)); unfold geb.
  - intros x y H1 H2. apply ltb_leb. eapply leb_ltb_trans; eassumption.
  - intros x y H1 H2. apply ltb_leb. eapply ltb_leb_trans; eassumption.
  - intros x y E. apply eqb_leb_r, E.
  - intros x y E. apply eqb_leb_l, E.
  - intros x N. apply nan_leb_r, N.
Qed.

(** What [check_bounds] does with a triple of pairs. *)
Lemma check_bounds_cases la1 la2 lo1 lo2 fd1 fd2 :
  let lat := pair_accepted latitude_accepted la1 la2 in
  let lon := pair_accepted longitude_accepted lo1 lo2 in
  let fd := pair_accepted forecast_days_accepted fd1 fd2 in
  (¬ lat ∧ check_bounds [la1; la2] [lo1; lo2] [fd1; fd2]
           = Raise (ValueError "Latitude bounds need to be within -90 and 90, got: "
                      [la1; la2]))
  ∨ (lat ∧ ¬ lon ∧ check_bounds [la1; la2] [lo1; lo2] [fd1; fd2]
           = Raise (ValueError "Longitude bounds must be positive and between 0-360 got: "
                      [lo1; lo2]))
  ∨ (lat ∧ lon ∧ ¬ fd ∧ check_bounds [la1; la2] [lo1; lo2] [fd1; fd2]
           = Raise (ValueError "Forecast hour bounds must be between 0-16 days, got: "
                      [fd1; fd2]))
  ∨ (lat ∧ lon ∧ fd ∧ check_bounds [la1; la2] [lo1; lo2] [fd1; fd2] = Return tt).
Proof.
  intros lat lon fd. rewrite check_bounds_pairs.
  pose proof (latitude_check la1 la2) as Hla.
  pose proof (longitude_check lo1 lo2) as Hlo.
  pose proof (forecast_days_check fd1 fd2) as Hfd.
  destruct (gtb _ (-90) && _) eqn:Ela; cbn [negb].
  2:{ left. split; [|reflexivity]. intros H. apply Hla in H. discriminate. }
  right. assert lat by (apply Hla; reflexivity).
  destruct (geb (if lo2 <? lo1 then _ else _) 0 && _) eqn:Elo; cbn [negb].
  2:{ left. split; [assumption|]. split; [|reflexivity].
      intros H'. apply Hlo in H'. discriminate. }
  right. assert lon by (apply Hlo; reflexivity).
  destruct (geb (if fd2 <? fd1 then _ else _) 0 && _) eqn:Efd; cbn [negb].
  2:{ left. split; [assumption|]. split; [assumption|]. split; [|reflexivity].
      intros H'. apply Hfd in H'. discriminate. }
  right. assert fd by (apply Hfd; reflexivity). tauto.
Qed.

Lemma pair_accepted_no_nan P a b :
  is_nan b = false → pair_accepted P a b ↔ P a ∧ P b.
Proof.
  intros N. unfold pair_accepted. split; [|tauto].
  intros [Ha [Hb|Hb]]; [tauto|congruence].
Qed.

(** C2, as the code has it.  The checks accept a triple of bound pairs
    exactly when, in each pair, the first bound is in its range and the
    second is in its range or is NaN, the ranges being latitude strictly
    between -90 and 90, longitude in [0, 360) and forecast days in [0, 16];
    so of the pairs free of NaN they accept exactly those with both bounds
    in these ranges.  Any other triple raises a [ValueError] that names the
    first offending pair, and the orchestrator raises it with no key
    enumerated and nothing done to its surroundings.  Latitude bounds
    (-95, 10), longitude bounds (-10, 50) and forecast-day bounds (0, 17)
    are each rejected. *)
Theorem check_bounds_accepts :
  (∀ la1 la2 lo1 lo2 fd1 fd2,
     check_bounds [la1; la2] [lo1; lo2] [fd1; fd2] = Return tt
     ↔ pair_accepted latitude_accepted la1 la2
       ∧ pair_accepted longitude_accepted lo1 lo2
       ∧ pair_accepted forecast_days_accepted fd1 fd2)
  ∧ (∀ la1 la2 lo1 lo2 fd1 fd2,
       is_nan la2 = false → is_nan lo2 = false → is_nan fd2 = false →
       check_bounds [la1; la2] [lo1; lo2] [fd1; fd2] = Return tt
       ↔ (latitude_accepted la1 ∧ latitude_accepted la2)
         ∧ (longitude_accepted lo1 ∧ longitude_accepted lo2)
         ∧ (forecast_days_accepted fd1 ∧ forecast_days_accepted fd2))
  ∧ (∀ la1 la2 lo1 lo2 fd1 fd2,
       ¬ (pair_accepted latitude_accepted la1 la2
          ∧ pair_accepted longitude_accepted lo1 lo2
          ∧ pair_accepted forecast_days_accepted fd1 fd2) →
       ∃ msg got,
         (got = [la1; la2] ∨ got = [lo1; lo2] ∨ got = [fd1; fd2])
         ∧ check_bounds [la1; la2] [lo1; lo2] [fd1; fd2]
           = Raise (ValueError msg got)
         ∧ ∀ start_date end_date date_frequency members var_names,
             enumerate_object_keys start_date end_date date_frequency members
               var_names [la1; la2] [lo1; lo2] [fd1; fd2]
             = Raise (ValueError msg got)
             ∧ ∀ (Dataset bytes : Type) (lib : @library Dataset bytes) names
                 merge local_save_dir final_save_path w,
                 get_and_process_reforecast_data lib names merge start_date
                   end_date date_frequency members var_names [la1; la2]
                   [lo1; lo2] [fd1; fd2] local_save_dir final_save_path w
                 = (Raise (ValueError msg got), w))
  ∧ (∀ lo1 lo2 fd1 fd2,
       check_bounds [-95; 10] [lo1; lo2] [fd1; fd2]
       = Raise (ValueError "Latitude bounds need to be within -90 and 90, got: "
                  [-95; 10]))
  ∧ (∀ la1 la2 fd1 fd2, ∃ msg got,
       check_bounds [la1; la2] [-10; 50] [fd1; fd2] = Raise (ValueError msg got))
  ∧ (∀ la1 la2 lo1 lo2, ∃ msg got,
       check_bounds [la1; la2] [lo1; lo2] [0; 17] = Raise (ValueError msg got)).
Proof.
  assert (∀ la1 la2 lo1 lo2 fd1 fd2,
     check_bounds [la1; la2] [lo1; lo2] [fd1; fd2] = Return tt
     ↔ pair_accepted latitude_accepted la1 la2
       ∧ pair_accepted longitude_accepted lo1 lo2
       ∧ pair_accepted forecast_days_accepted fd1 fd2) as Hiff.
  { intros. destruct (check_bounds_cases la1 la2 lo1 lo2 fd1 fd2)
      as [(? & ->)|[(? & ? & ->)|[(? & ? & ? & ->)|(? & ? & ? & ->)]]];
      split; intros; try discriminate; tauto. }
  split; [exact Hiff|]. split; [|split; [|split; [|split]]].
  - intros la1 la2 lo1 lo2 fd1 fd2 Nla Nlo Nfd.
    rewrite Hiff, !pair_accepted_no_nan by assumption. reflexivity.
  - intros la1 la2 lo1 lo2 fd1 fd2 Hno.
    assert (∃ msg got, (got = [la1; la2] ∨ got = [lo1; lo2] ∨ got = [fd1; fd2])
              ∧ check_bounds [la1; la2] [lo1; lo2] [fd1; fd2]
                = Raise (ValueError msg got)) as (msg & got & Hgot & E).
    { destruct (check_bounds_cases la1 la2 lo1 lo2 fd1 fd2)
        as [(? & ->)|[(? & ? & ->)|[(? & ? & ? & ->)|(? & ? & ? & ->)]]];
        [eauto 6..|tauto]. }
    exists msg, got. split; [exact Hgot|]. split; [exact E|].
    intros. assert (enumerate_object_keys start_date end_date date_frequency
                      members var_names [la1; la2] [lo1; lo2] [fd1; fd2]
                    = Raise (ValueError msg got)) as E'.
    { unfold enumerate_object_keys. rewrite E. reflexivity. }
    split; [exact E'|]. intros.
    unfold get_and_process_reforecast_data. rewrite E'. reflexivity.
  - intros. destruct (check_bounds_cases (-95) 10 lo1 lo2 fd1 fd2)
      as [(? & ->)|[([[H _] _] & _)|[([[H _] _] & _)|([[H _] _] & _)]]];
      [reflexivity|..]; vm_compute in H; discriminate.
  - intros. destruct (check_bounds_cases la1 la2 (-10) 50 fd1 fd2)
      as [(? & ->)|[(? & ? & ->)|[(_ & [[H _] _] & _)|(_ & [[H _] _] & _)]]];
      [eauto..| |]; vm_compute in H; discriminate.
  - intros. destruct (check_bounds_cases la1 la2 lo1 lo2 0 17)
      as [(? & ->)|[(? & ? & ->)|[(? & ? & ? & ->)
                                  |(_ & _ & [_ [[_ H]|H]] & _)]]];
      [eauto..| |]; vm_compute in H; discriminate.
Qed.

Lemma check_bounds_accepts_witness :
  ∃ msg got,
    (got = [100; 10] ∨ got = [0; 50] ∨ got = [0; 16])
    ∧ check_bounds [100; 10] [0; 50] [0; 16] = Raise (ValueError msg got)
    ∧ ∀ start_date end_date date_frequency members var_names,
        enumerate_object_keys start_date end_date date_frequency members
          var_names [100; 10] [0; 50] [0; 16]
        = Raise (ValueError msg got)
        ∧ ∀ (Dataset bytes : Type) (lib : @library Dataset bytes) names merge
            local_save_dir final_save_path w,
            get_and_process_reforecast_data lib names merge start_date
              end_date date_frequency members var_names [100; 10] [0; 50]
              [0; 16] local_save_dir final_save_path w
            = (Raise (ValueError msg got), w).
Proof.
  apply (proj1 (proj2 (proj2 check_bounds_accepts)) 100 10 0 50 0 16).
  intros [[[_ H] _] _]. vm_compute in H. discriminate.
Defined.

(** C2, as the specification states it, fails: the closed latitude range is
    not what the checks accept.  The pair (-90, 10) is within [-90, 90] and
    is rejected; and the pair (10, NaN), whose second bound is in no range,
    is accepted. *)
Lemma check_bounds_rejects_pole :
  (latitude_documented (-90) ∧ latitude_documented 10)
  ∧ (longitude_accepted 0 ∧ longitude_accepted 50)
  ∧ (forecast_days_accepted 0 ∧ forecast_days_accepted 16)
  ∧ check_bounds [-90; 10] [0; 50] [0; 16]
    = Raise (ValueError "Latitude bounds need to be within -90 and 90, got: "
               [-90; 10])
  ∧ ¬ latitude_documented nan
  ∧ check_bounds [10; nan] [0; 50] [0; 16] = Return tt.
Proof.
  unfold latitude_documented, longitude_accepted, forecast_days_accepted.
  repeat split. intros [H _]. vm_compute in H. discriminate.
Qed.

#[local] Close Scope float_scope.
#[local] Open Scope nat_scope.

Lemma bind_uniform_length {A B} (f : A → list B) (l : list A) n :
  (∀ a, length (f a) = n) → length (l ≫= f) = length l * n.
Proof.
  intros Hf. induction l as [|a l IH]; [reflexivity|].
  rewrite bind_cons, length_app, Hf, IH. reflexivity.
Qed.

Lemma bind_uniform_lookup {A B} (f : A → list B) (l : list A) n i j x :
  (∀ a, length (f a) = n) → l !! i = Some x → j < n →
  (l ≫= f) !! (i * n + j) = f x !! j.
Proof.
  intros Hf. revert i. induction l as [|a l IH]; intros i Hi Hj; [discriminate|].
  rewrite bind_cons. destruct i as [|i]; cbn in Hi.
  - injection Hi as ->. apply lookup_app_l. rewrite Hf. exact Hj.
  - rewrite lookup_app_r; rewrite Hf; [|lia].
    replace (S i * n + j - n) with (i * n + j) by lia. apply IH; assumption.
Qed.

Lemma globbed_list_of_length days dts var_names members :
  length (globbed_list_of days dts var_names members)
  = length dts * (length var_names * length members).
Proof.
  unfold globbed_list_of. apply bind_uniform_length. intros dt.
  apply bind_uniform_length. intros v.
  rewrite (bind_uniform_length _ _ 1); [lia|reflexivity].
Qed.

Lemma globbed_list_of_lookup days dts var_names members i j k dt v m :
  dts !! i = Some dt → var_names !! j = Some v → members !! k = Some m →
  globbed_list_of days dts var_names members
    !! (i * (length var_names * length members) + (j * length members + k))
  = Some (object_key days dt v m).
Proof.
  intros Hi Hj Hk. unfold globbed_list_of.
  pose proof (lookup_lt_Some _ _ _ Hj). pose proof (lookup_lt_Some _ _ _ Hk).
  assert (∀ (d : Z) (v : string),
            length (members ≫= λ member, [object_key days d v member])
            = length members) as Hin.
  { intros. rewrite (bind_uniform_length _ _ 1); [lia|reflexivity]. }
  rewrite (bind_uniform_lookup _ _ (length var_names * length members) _ _ dt);
    [|intros; apply bind_uniform_length; intros; apply Hin|assumption|nia].
  rewrite (bind_uniform_lookup _ _ (length members) _ _ v);
    [|intros; apply Hin|assumption|assumption].
  replace k with (k * 1 + 0) by lia.
  rewrite (bind_uniform_lookup _ _ 1 _ _ m); [reflexivity|reflexivity|assumption|lia].
Qed.

Lemma date_range_lookup start_date end_date date_frequency :
  date_frequency ≠ 0%Z →
  ∃ dts, date_range start_date end_date date_frequency = Return dts
    ∧ length dts
      = Z.to_nat ((end_date - start_date) / date_frequency + 1)
    ∧ ∀ i, i < length dts →
        dts !! i = Some (start_date + Z.of_nat i * date_frequency)%Z.
Proof.
  intros Hf. unfold date_range.
  destruct (Z.eqb_spec date_frequency 0); [contradiction|].
  eexists. split; [reflexivity|]. rewrite length_fmap, length_seq.
  split; [reflexivity|]. intros i Hi.
  rewrite list_lookup_fmap, lookup_seq_lt by assumption. reflexivity.
Qed.

(** C4. The orchestrator hands to the pool the list with one key for each
    triple of a date of the range, a variable name and a member, with the
    dates outermost and the members innermost; 2 dates, 2 variables and 1
    member give the 4 keys below, in that order. *)
Theorem enumerate_object_keys_product :
  (∀ start_date end_date date_frequency members var_names la lo fd dts,
     check_bounds la lo fd = Return tt →
     date_range start_date end_date date_frequency = Return dts →
     ∃ days,
       enumerate_object_keys start_date end_date date_frequency members
         var_names la lo fd
       = Return (globbed_list_of days dts var_names members)
       ∧ (days = "Days:1-10" ∨ days = "Days:10-16")%string)
  ∧ (∀ days dts var_names members,
       length (globbed_list_of days dts var_names members)
       = length dts * (length var_names * length members)
       ∧ ∀ i j k dt v m,
           dts !! i = Some dt → var_names !! j = Some v → members !! k = Some m →
           globbed_list_of days dts var_names members
             !! (i * (length var_names * length members)
                 + (j * length members + k))
           = Some (object_key days dt v m))
  ∧ (∀ start_date end_date date_frequency, date_frequency ≠ 0%Z →
       ∃ dts, date_range start_date end_date date_frequency = Return dts
         ∧ length dts
           = Z.to_nat ((end_date - start_date) / date_frequency + 1)
         ∧ ∀ i, i < length dts →
             dts !! i = Some (start_date + Z.of_nat i * date_frequency)%Z)
  ∧ enumerate_object_keys (days_from_civil 2000 1 1) (days_from_civil 2000 1 2)
      1 ["c00"] ["cape_sfc"; "cin_sfc"] [22; 55]%float [230; 291]%float
      [5.5; 6.5]%float
    = Return
        ["noaa-gefs-retrospective/GEFSv12/reforecast/2000/2000010100/c00/Days:1-10/cape_sfc_2000010100_c00.grib2";
         "noaa-gefs-retrospective/GEFSv12/reforecast/2000/2000010100/c00/Days:1-10/cin_sfc_2000010100_c00.grib2";
         "noaa-gefs-retrospective/GEFSv12/reforecast/2000/2000010200/c00/Days:1-10/cape_sfc_2000010200_c00.grib2";
         "noaa-gefs-retrospective/GEFSv12/reforecast/2000/2000010200/c00/Days:1-10/cin_sfc_2000010200_c00.grib2"]%string.
Proof.
  split; [|split; [|split]].
  - intros * Hc Hd. unfold enumerate_object_keys. rewrite Hc. cbn [bind].
    unfold check_bounds in Hc.
    destruct (py_min la) as [?|?]; [|discriminate]. cbn [bind] in Hc.
    destruct (py_max la) as [?|?]; [|discriminate]. cbn [bind] in Hc.
    destruct (negb _); [discriminate|].
    destruct (py_min lo) as [?|?]; [|discriminate]. cbn [bind] in Hc.
    destruct (py_max lo) as [?|?]; [|discriminate]. cbn [bind] in Hc.
    destruct (negb _); [discriminate|].
    destruct (py_min fd) as [?|?]; [|discriminate]. cbn [bind] in Hc.
    destruct (py_max fd) as [hi|?]; [|discriminate]. cbn [bind].
    rewrite Hd. cbn [bind]. eexists. split; [reflexivity|].
    destruct (hi <? 10)%float; [left|right]; reflexivity.
  - intros. split; [apply globbed_list_of_length|].
    intros. apply globbed_list_of_lookup; assumption.
  - apply date_range_lookup.
  - vm_compute. reflexivity.
Qed.

Lemma enumerate_object_keys_product_witness :
  ∃ days,
    enumerate_object_keys 10957 10964 7 ["c00"; "p01"] ["apcp_sfc"]
      [22; 55]%float [230; 291]%float [12; 14]%float
    = Return (globbed_list_of days [10957; 10964]%Z ["apcp_sfc"] ["c00"; "p01"])
    ∧ (days = "Days:1-10" ∨ days = "Days:10-16")%string.
Proof.
  apply (proj1 enumerate_object_keys_product 10957%Z 10964%Z 7%Z ["c00"; "p01"]
           ["apcp_sfc"] [22; 55]%float [230; 291]%float [12; 14]%float
           [10957; 10964]%Z).
  - vm_compute. reflexivity.
  - vm_compute. reflexivity.
Defined.

End ReforecastFacts.

Section WorkerFacts.
Import Python Calendar Reforecast.
Context {Dataset bytes : Type} (lib : @library Dataset bytes).

Lemma module_names_os : "os" ∉ module_names.
Proof.
  unfold module_names. intros H.
  repeat (apply elem_of_cons in H as [H|H]; [discriminate|]).
  inversion H.
Qed.

Lemma global_bound names name : name ∈ names → global names name = Return tt.
Proof.
  intros H. unfold global. destruct (decide _); [reflexivity|contradiction].
Qed.

Lemma global_unbound names name :
  name ∉ names → global names name = Raise (NameError name).
Proof.
  intros H. unfold global. destruct (decide _); [contradiction|reflexivity].
Qed.

(** The output path of a key, once [os] is bound. *)
Lemma saved_file_path_of_bound names s3_prefix save_dir :
  "os" ∈ names →
  saved_file_path_of names s3_prefix save_dir
  = Return (path_join save_dir
              (nc_name (List.last (split "/"%char s3_prefix) ""))).
Proof.
  intros H. unfold saved_file_path_of. rewrite (global_bound _ _ H).
  reflexivity.
Qed.

(** In a namespace without [os] the worker raises [NameError] on line 128,
    whatever its arguments and the local files are. *)
Lemma download_and_process_grib_unbound names s3_prefix la lo fd save_dir
    (w : @world Dataset) :
  "os" ∉ names →
  download_and_process_grib lib names s3_prefix la lo fd save_dir w
  = (Raise (NameError "os"), w).
Proof.
  intros H. unfold download_and_process_grib, saved_file_path_of.
  rewrite (global_unbound _ _ H). reflexivity.
Qed.

(** With [os] bound, an output file that is there is returned at once. *)
Lemma download_and_process_grib_hit names s3_prefix la lo fd save_dir
    (w : @world Dataset) p :
  saved_file_path_of names s3_prefix save_dir = Return p →
  is_Some (files w !! p) →
  download_and_process_grib lib names s3_prefix la lo fd save_dir w
  = (Return (Some p), w).
Proof.
  intros Hp H. unfold download_and_process_grib. rewrite Hp.
  destruct (decide _) as [_|N]; [reflexivity|contradiction].
Qed.

(** With [os] bound, once [create_selection_dict] has returned and the
    temporary directory exists, no failure of a later step leaves the
    worker: it returns, and a missing result comes with a logged
    message. *)
Lemma download_and_process_grib_swallows names s3_prefix la lo fd sd
    save_dir (w : @world Dataset) :
  "os" ∈ names →
  create_selection_dict (pandas_Timedelta_days lib) la lo fd = Return sd →
  is_Some (TemporaryDirectory lib) →
  ∃ r w', download_and_process_grib lib names s3_prefix la lo fd save_dir w
          = (Return r, w')
          ∧ (r = None → files w' = files w
                        ∧ ∃ evs msg, events w' = events w ++ evs ++ [Logged msg]).
Proof.
  intros Hos Hsd [t Ht]. unfold download_and_process_grib.
  rewrite (saved_file_path_of_bound _ _ _ Hos).
  destruct (decide _) as [H|_]; [eexists _, _; split; [reflexivity|discriminate]|].
  rewrite Hsd. unfold try_block. rewrite Ht, (global_bound _ _ Hos).
  destruct (s3_read lib s3_prefix ≫= _) as [data|].
  2:{ eexists _, _. split; [reflexivity|]. intros _. split; [reflexivity|].
      eexists [_], _. cbn. rewrite <- app_assoc. reflexivity. }
  unfold try_to_open_grib_file.
  destruct (open_dataset lib _ data) as [ds|].
  - destruct (process _ _ _ _) as [ds'|].
    + destruct (to_netcdf _ _ _).
      * eexists _, _. split; [reflexivity|discriminate].
      * eexists _, _. split; [reflexivity|]. intros _. split; [reflexivity|].
        eexists [_], _. cbn. rewrite <- app_assoc. reflexivity.
    + eexists _, _. split; [reflexivity|]. intros _. split; [reflexivity|].
      eexists [_], _. cbn. rewrite <- app_assoc. reflexivity.
  - destruct (open_datasets lib _ data ≫= _) as [ds|].
    + destruct (process _ _ _ _) as [ds'|].
      * destruct (to_netcdf _ _ _).
        -- eexists _, _. split; [reflexivity|discriminate].
        -- eexists _, _. split; [reflexivity|]. intros _. split; [reflexivity|].
           eexists [_], _. cbn. rewrite <- app_assoc. reflexivity.
      * eexists _, _. split; [reflexivity|]. intros _. split; [reflexivity|].
        eexists [_], _. cbn. rewrite <- app_assoc. reflexivity.
    + eexists _, _. split; [reflexivity|]. intros _. split; [reflexivity|].
      eexists [_], _. cbn. rewrite <- app_assoc. reflexivity.
Qed.

(** With [os] bound, when the temporary directory cannot be created the
    handler raises. *)
Lemma download_and_process_grib_no_tmp names s3_prefix la lo fd sd save_dir
    (w : @world Dataset) p :
  "os" ∈ names →
  saved_file_path_of names s3_prefix save_dir = Return p →
  files w !! p = None →
  create_selection_dict (pandas_Timedelta_days lib) la lo fd = Return sd →
  TemporaryDirectory lib = None →
  download_and_process_grib lib names s3_prefix la lo fd save_dir w
  = (Raise (UnboundLocalError "grib_file"), w).
Proof.
  intros Hos Hp Hf Hsd Ht. unfold download_and_process_grib. rewrite Hp.
  destruct (decide _) as [[? H]|_]; [congruence|].
  rewrite Hsd. unfold try_block. rewrite Ht. reflexivity.
Qed.

(** An exception of [pd.Timedelta] on line 132 leaves the worker: the call
    of [create_selection_dict] is outside the [try]. *)
Lemma download_and_process_grib_selection names s3_prefix la lo fd e save_dir
    (w : @world Dataset) p :
  saved_file_path_of names s3_prefix save_dir = Return p →
  files w !! p = None →
  create_selection_dict (pandas_Timedelta_days lib) la lo fd = Raise e →
  download_and_process_grib lib names s3_prefix la lo fd save_dir w
  = (Raise e, w).
Proof.
  intros Hp Hf Hsd. unfold download_and_process_grib. rewrite Hp.
  destruct (decide _) as [[? H]|_]; [congruence|].
  rewrite Hsd. reflexivity.
Qed.

(** The call of line 201 never reaches the body of the worker. *)
Lemma get_and_process_reforecast_data_arity names merge start_date end_date
    date_frequency members var_names la lo fd local_save_dir final_save_path
    (w : @world Dataset) key keys :
  enumerate_object_keys start_date end_date date_frequency members var_names
    la lo fd = Return (key :: keys) →
  get_and_process_reforecast_data lib names merge start_date end_date
    date_frequency members var_names la lo fd local_save_dir final_save_path w
  = (Raise (TypeError "download_and_process_grib() missing required positional arguments"), w).
Proof.
  intros H. unfold get_and_process_reforecast_data. rewrite H. reflexivity.
Qed.

End WorkerFacts.

Section WorkerRuns.
Import Python Calendar Reforecast.

(** C6, where the code departs from it.  The module never imports [os], so
    in the module's namespace every call of the worker raises [NameError]
    on line 128, before the existence check of line 129: with the output
    file of the key already there the call raises instead of returning its
    path. *)
Theorem download_and_process_grib_name_error :
  (∀ (Dataset bytes : Type) (lib : @library Dataset bytes) s3_prefix la lo fd
     save_dir (w : @world Dataset),
     download_and_process_grib lib module_names s3_prefix la lo fd save_dir w
     = (Raise (NameError "os"), w))
  ∧ (let key := "noaa-gefs-retrospective/GEFSv12/reforecast/2000/2000010100/c00/Days:1-10/cape_sfc_2000010100_c00.grib2" in
     let w := mkworld {[ "./reforecast_v3/cape_sfc_2000010100_c00.nc" := tt ]}
                [Fetched key; Saved "./reforecast_v3/cape_sfc_2000010100_c00.nc"] in
     saved_file_path_of ("os" :: module_names) key "./reforecast_v3"
     = Return "./reforecast_v3/cape_sfc_2000010100_c00.nc"
     ∧ is_Some (files w !! "./reforecast_v3/cape_sfc_2000010100_c00.nc")
     ∧ download_and_process_grib plain_library module_names key [22; 55]%float
         [230; 291]%float [5.5; 6.5]%float "./reforecast_v3" w
       = (Raise (NameError "os"), w)).
Proof.
  split.
  - intros. apply download_and_process_grib_unbound, module_names_os.
  - intros key w. split; [|split].
    + rewrite saved_file_path_of_bound by apply list_elem_of_here.
      vm_compute. reflexivity.
    + vm_compute. eexists. reflexivity.
    + apply download_and_process_grib_unbound, module_names_os.
Qed.

(** C7, where the code departs from it.  With [os] bound and no usable
    temporary directory the handler of the worker raises
    [UnboundLocalError] to its caller; the orchestrator's call of the
    worker with the key alone raises [TypeError] for the first key, so the
    batch does not complete; and in the module's own namespace the worker
    raises [NameError] before it reaches its [try]. *)
Theorem download_and_process_grib_escapes :
  (∀ key : string,
     download_and_process_grib no_tmp_library ("os" :: module_names) key
       [22; 55]%float [230; 291]%float [5.5; 6.5]%float "./reforecast_v3"
       (mkworld ∅ [])
     = (Raise (UnboundLocalError "grib_file"), mkworld ∅ []))
  ∧ (∀ names merge,
       get_and_process_reforecast_data plain_library names merge
         (days_from_civil 2000 1 1) (days_from_civil 2000 1 2) 1 ["c00"]
         ["cape_sfc"; "cin_sfc"; "hlcy_hgt"] [22; 55]%float [230; 291]%float
         [5.5; 6.5]%float "./reforecast_v3" "./combined_reforecast_data.nc"
         (mkworld ∅ [])
       = (Raise (TypeError "download_and_process_grib() missing required positional arguments"),
          mkworld ∅ []))
  ∧ (∀ key : string,
       download_and_process_grib no_tmp_library module_names key
         [22; 55]%float [230; 291]%float [5.5; 6.5]%float "./reforecast_v3"
         (mkworld ∅ [])
       = (Raise (NameError "os"), mkworld ∅ [])).
Proof.
  split; [|split].
  - intros key.
    eapply download_and_process_grib_no_tmp;
      [apply list_elem_of_here
      |apply saved_file_path_of_bound, list_elem_of_here
      |apply lookup_empty|reflexivity|reflexivity].
  - intros names merge. eapply get_and_process_reforecast_data_arity.
    vm_compute. reflexivity.
  - intros key. apply download_and_process_grib_unbound, module_names_os.
Qed.

End WorkerRuns.

Section DownloadFacts.
Import Python Calendar Download.
#[local] Open Scope nat_scope.

(** The two ways through the body of the loop: the file is there and is
    not the recorded one, and nothing happens; or it is fetched, after being
    removed when it is the recorded one. *)
Lemma download_file_cases b p w :
  (is_Some (files w !! p) ∧ b ≠ Some p ∧ download_file b p w = (None, w))
  ∨ ∃ pre o msg w',
      download_file b p w = (if is_disconnect o then Some p else None, w')
      ∧ (pre = [Removed p] ∧ is_Some (files w !! p) ∧ b = Some p
         ∨ pre = [] ∧ files w !! p = None)
      ∧ (network w = [] ∧ o = Transferred "" ∧ network w' = []
         ∨ network w = o :: network w')
      ∧ events w' = events w ++ pre ++ [Opened p; Logged msg]
      ∧ files w' = <[p := received o]> (files w)
      ∧ dirs w' = dirs w.
Proof.
  assert (∀ (f : gmap string string) x y,
            <[p := y]> (<[p := x]> (delete p f)) = <[p := y]> f) as Hdel.
  { intros. apply map_eq. intros q. destruct (decide (p = q)) as [->|N].
    - rewrite !lookup_insert_eq. reflexivity.
    - rewrite !lookup_insert_ne, lookup_delete_ne by assumption. reflexivity. }
  assert (∀ (f : gmap string string) x y,
            <[p := y]> (<[p := x]> f) = <[p := y]> f) as Hins.
  { intros. apply insert_insert_eq. }
  unfold download_file, print_log.
  destruct (exists_ p w) eqn:Ex; unfold exists_ in Ex.
  - apply bool_decide_eq_true in Ex.
    destruct (bool_decide (b = Some p)) eqn:Eb; cbn [andb].
    + apply bool_decide_eq_true in Eb. right.
      assert (exists_ p (remove p w) = false) as ->.
      { unfold exists_, remove. cbn. apply bool_decide_eq_false.
        rewrite lookup_delete_eq. intros [? ?]; discriminate. }
      unfold next_outcome. cbn.
      destruct (network w) as [|o os] eqn:En.
      * eexists [Removed p], (Transferred ""), _, _. cbn [is_disconnect received].
        split; [reflexivity|]. cbv [emit write remove events files dirs network].
        split; [left; auto|]. split; [left; auto|].
        split; [rewrite <- !app_assoc; reflexivity|].
        split; [apply Hdel|reflexivity].
      * destruct o as [d|d|d];
          [eexists [Removed p], (Transferred d), _, _
          |eexists [Removed p], (EOFError d), _, _
          |eexists [Removed p], (ConnectionResetError d), _, _];
          cbn [is_disconnect received];
          (split; [reflexivity|]); cbv [emit write remove events files dirs network];
          (split; [left; auto|]); (split; [right; reflexivity|]);
          (split; [rewrite <- !app_assoc; reflexivity|]);
          (split; [apply Hdel|reflexivity]).
    + apply bool_decide_eq_false in Eb. left.
      unfold exists_. rewrite (bool_decide_eq_true_2 _ Ex). auto.
  - apply bool_decide_eq_false in Ex. cbn [andb]. right.
    assert (files w !! p = None) as Hn.
    { destruct (files w !! p) eqn:E; [exfalso; apply Ex; eauto|reflexivity]. }
    unfold exists_. rewrite (bool_decide_eq_false_2 _ Ex).
    unfold next_outcome. cbn.
    destruct (network w) as [|o os] eqn:En.
    * eexists [], (Transferred ""), _, _. cbn [is_disconnect received].
      split; [reflexivity|]. cbv [emit write remove events files dirs network].
      split; [right; auto|]. split; [left; auto|].
      split; [rewrite <- !app_assoc; reflexivity|]. split; [apply Hins|reflexivity].
    * destruct o as [d|d|d];
        [eexists [], (Transferred d), _, _
        |eexists [], (EOFError d), _, _
        |eexists [], (ConnectionResetError d), _, _];
        cbn [is_disconnect received];
        (split; [reflexivity|]); cbv [emit write remove events files dirs network];
        (split; [right; auto|]); (split; [right; reflexivity|]);
        (split; [rewrite <- !app_assoc; reflexivity|]); (split; [apply Hins|reflexivity]).
Qed.

Lemma download_files_app b ps1 ps2 w :
  download_files b (ps1 ++ ps2) w
  = match download_files b ps1 w with
    | (Some f, w') => (Some f, w')
    | (None, w') => download_files b ps2 w'
    end.
Proof.
  revert w. induction ps1 as [|p ps1 IH]; intros w; [reflexivity|].
  cbn [app download_files].
  destruct (download_file b p w) as [[f|] w1]; [reflexivity|apply IH].
Qed.

Lemma download_file_data b p w1 w2 :
  data w1 = data w2 →
  (download_file b p w1).1 = (download_file b p w2).1
  ∧ data (download_file b p w1).2 = data (download_file b p w2).2.
Proof.
  destruct w1 as [f1 d1 n1 e1], w2 as [f2 d2 n2 e2].
  intros [= -> -> ->].
  unfold download_file, exists_, remove, emit, write, print_log. cbn.
  destruct (bool_decide (is_Some (f2 !! p)) && bool_decide (b = Some p)); cbn.
  - destruct (bool_decide (is_Some (delete p f2 !! p))); [auto|].
    unfold next_outcome. cbn.
    destruct n2 as [|[d|d|d] n2]; cbn; auto.
  - destruct (bool_decide (is_Some (f2 !! p))); [auto|].
    unfold next_outcome. cbn.
    destruct n2 as [|[d|d|d] n2]; cbn; auto.
Qed.

(** The transfers neither read nor change the directories. *)
Lemma download_files_data b ps w1 w2 :
  data w1 = data w2 →
  (download_files b ps w1).1 = (download_files b ps w2).1
  ∧ data (download_files b ps w1).2 = data (download_files b ps w2).2.
Proof.
  revert w1 w2. induction ps as [|p ps IH]; intros w1 w2 E; [auto|].
  cbn [download_files].
  destruct (download_file_data b p w1 w2 E) as [E1 E2].
  destruct (download_file b p w1) as [[f|] w1'],
           (download_file b p w2) as [[f'|] w2'];
    cbn in E1, E2; try discriminate; [injection E1 as ->; auto|].
  apply IH, E2.
Qed.

(** The two nested loops are one loop over the files of the range. *)
Lemma download_dates_flat b ds w :
  (download_dates b ds w).1 = (download_files b (ds ≫= paths_of) w).1
  ∧ data (download_dates b ds w).2
    = data (download_files b (ds ≫= paths_of) w).2.
Proof.
  revert w. induction ds as [|d ds IH]; intros w; [auto|].
  rewrite bind_cons, download_files_app. cbn [download_dates].
  set (w1 := if bool_decide _ then w else _).
  assert (data w1 = data w) as E by (subst w1; destruct (bool_decide _); reflexivity).
  destruct (download_files_data b (paths_of d) w1 w E) as [E1 E2].
  destruct (download_files b (paths_of d) w1) as [[f|] w1'],
           (download_files b (paths_of d) w) as [[f'|] w'];
    cbn in E1, E2; try discriminate; [injection E1 as ->; auto|].
  destruct (IH w1') as [I1 I2].
  destruct (download_files_data b (ds ≫= paths_of) w1' w' E2) as [E3 E4].
  split; congruence.
Qed.

(** A file that is there and is not the recorded one is neither removed
    nor opened, and keeps its content. *)
Lemma download_files_frame b ps w p c :
  files w !! p = Some c → b ≠ Some p →
  files (download_files b ps w).2 !! p = Some c
  ∧ (download_files b ps w).1 ≠ Some p
  ∧ ∃ evs, events (download_files b ps w).2 = events w ++ evs
           ∧ Forall (fun e => ¬ touches p e) evs.
Proof.
  intros Hc Hb. revert w Hc. induction ps as [|q ps IH]; intros w Hc.
  { cbn. split; [assumption|]. split; [discriminate|].
    exists []. rewrite app_nil_r. auto. }
  cbn [download_files].
  destruct (download_file_cases b q w)
    as [(_ & _ & ->)|(pre & o & msg & w1 & -> & Hpre & _ & Hev & Hf & _)].
  { apply IH, Hc. }
  assert (q ≠ p) as Hq.
  { intros ->. destruct Hpre as [(_ & _ & ?)|[_ ?]]; congruence. }
  assert (files w1 !! p = Some c) as Hc1
    by (rewrite Hf, lookup_insert_ne by assumption; assumption).
  assert (Forall (fun e => ¬ touches p e) (pre ++ [Opened q; Logged msg])) as Hno.
  { apply Forall_app. split.
    - destruct Hpre as [(-> & _)|[-> _]]; [|constructor].
      constructor; [|constructor]. intros [[=]|[=]]. congruence.
    - constructor; [intros [[=]|[=]]; congruence|].
      constructor; [intros [[=]|[=]]|constructor]. }
  destruct (is_disconnect o).
  - cbn. split; [assumption|]. split; [congruence|]. eauto.
  - destruct (IH w1 Hc1) as (IH1 & IH0 & evs & IH2 & IH3).
    split; [assumption|]. split; [assumption|].
    exists ((pre ++ [Opened q; Logged msg]) ++ evs).
    rewrite IH2, Hev, <- !app_assoc. split; [reflexivity|].
    apply Forall_app in Hno as [? ?].
    apply Forall_app. split; [assumption|]. apply Forall_app. auto.
Qed.

(** No file disappears in a pass. *)
Lemma download_files_keeps b ps w q :
  is_Some (files w !! q) → is_Some (files (download_files b ps w).2 !! q).
Proof.
  revert w. induction ps as [|p ps IH]; intros w Hq; [assumption|].
  cbn [download_files].
  destruct (download_file_cases b p w)
    as [(_ & _ & ->)|(pre & o & msg & w1 & -> & _ & _ & _ & Hf & _)].
  { apply IH, Hq. }
  assert (is_Some (files w1 !! q)) as Hq1.
  { rewrite Hf. destruct (decide (p = q)) as [->|N].
    - rewrite lookup_insert_eq. eauto.
    - rewrite lookup_insert_ne by assumption. assumption. }
  destruct (is_disconnect o); [assumption|apply IH, Hq1].
Qed.


(** How a pass over the files ends: with every file there, or at the file
    whose transfer was cut, the files before it being there. *)
Lemma download_files_ends b ps w :
  match (download_files b ps w).1 with
  | None => ∀ q, q ∈ ps → is_Some (files (download_files b ps w).2 !! q)
  | Some f =>
      ∃ pre post o,
        ps = pre ++ f :: post
        ∧ (∀ q, q ∈ pre → is_Some (files (download_files b ps w).2 !! q))
        ∧ o ∈ network w ∧ is_disconnect o = true
        ∧ files (download_files b ps w).2 !! f = Some (received o)
        ∧ disconnects (download_files b ps w).2 < disconnects w
        ∧ ∃ evs msg, events (download_files b ps w).2
                     = events w ++ evs ++ [Opened f; Logged msg]
                     ∧ Forall (fun e => e ≠ Quit ∧ e ≠ Connected) evs
  end.
Proof.
  revert w. induction ps as [|p ps IH]; intros w.
  { cbn. intros q Hq. inversion Hq. }
  cbn [download_files].
  destruct (download_file_cases b p w)
    as [(Hp & _ & E)|(pre & o & msg & w1 & E & Hpre & Hnet & Hev & Hf & _)];
    rewrite E.
  - specialize (IH w).
    destruct (download_files b ps w) as [[f|] w'] eqn:Ew; cbn [fst snd] in *.
    + destruct IH as (pre & post & o & -> & Hall & IH).
      exists (p :: pre), post, o. split; [reflexivity|].
      split; [|exact IH]. intros q Hq. apply elem_of_cons in Hq as [->|Hq].
      * pose proof (download_files_keeps b (pre ++ f :: post) w p Hp) as K.
        rewrite Ew in K. exact K.
      * apply Hall, Hq.
    + intros q Hq. apply elem_of_cons in Hq as [->|Hq]; [|apply IH, Hq].
      pose proof (download_files_keeps b ps w p Hp) as K.
      rewrite Ew in K. exact K.
  - assert (is_Some (files w1 !! p)) as Hp1
      by (rewrite Hf, lookup_insert_eq; eauto).
    assert (disconnects w1 <= disconnects w
            ∧ (is_disconnect o = true →
               o ∈ network w ∧ disconnects w1 < disconnects w)) as [Hd Hd'].
    { unfold disconnects. destruct Hnet as [(-> & -> & ->)| ->].
      - split; [lia|]. discriminate.
      - cbn. destruct (is_disconnect o); cbn; split; try lia; try discriminate.
        intros _. split; [apply list_elem_of_here|lia]. }
    destruct (is_disconnect o) eqn:Eo; cbn [fst snd].
    + destruct (Hd' eq_refl) as [Hin Hlt].
      exists [], ps, o. split; [reflexivity|].
      split; [intros q Hq; inversion Hq|].
      split; [assumption|]. split; [assumption|].
      split; [rewrite Hf, lookup_insert_eq; reflexivity|].
      split; [assumption|]. exists pre, msg. split; [assumption|].
      destruct Hpre as [(-> & _)|[-> _]]; repeat constructor; discriminate.
    + specialize (IH w1).
      destruct (download_files b ps w1) as [[f|] w'] eqn:Ew; cbn [fst snd] in *.
      * destruct IH as (pre' & post & o' & -> & Hall & Ho' & Hdis & Hf' & Hlt
                        & evs & msg' & Hev' & Hno).
        exists (p :: pre'), post, o'. split; [reflexivity|].
        split.
        { intros q Hq. apply elem_of_cons in Hq as [->|Hq]; [|apply Hall, Hq].
          pose proof (download_files_keeps b (pre' ++ f :: post) w1 p Hp1) as K.
          rewrite Ew in K. exact K. }
        split.
        { destruct Hnet as [(_ & _ & Hn)| ->]; [rewrite Hn in Ho'; inversion Ho'|].
          apply elem_of_cons. auto. }
        split; [assumption|]. split; [assumption|]. split; [lia|].
        exists ((pre ++ [Opened p; Logged msg]) ++ evs), msg'.
        rewrite Hev', Hev, <- !app_assoc. split; [reflexivity|].
        apply Forall_app. split.
        { destruct Hpre as [(-> & _)|[-> _]]; repeat constructor; discriminate. }
        apply Forall_app. split; [repeat constructor; discriminate|assumption].
      * intros q Hq. apply elem_of_cons in Hq as [->|Hq]; [|apply IH, Hq].
        pose proof (download_files_keeps b ps w1 p Hp1) as K.
        rewrite Ew in K. exact K.
Qed.


(** Only the recorded file is ever removed. *)
Lemma download_files_removes b ps w :
  ∃ evs, events (download_files b ps w).2 = events w ++ evs
         ∧ ∀ p, Removed p ∈ evs → b = Some p.
Proof.
  revert w. induction ps as [|q ps IH]; intros w.
  { cbn. exists []. rewrite app_nil_r. split; [reflexivity|].
    intros p Hp. inversion Hp. }
  cbn [download_files].
  destruct (download_file_cases b q w)
    as [(_ & _ & ->)|(pre & o & msg & w1 & -> & Hpre & _ & Hev & Hf & _)].
  { apply IH. }
  assert (∀ p, Removed p ∈ pre ++ [Opened q; Logged msg] → b = Some p) as Hrm.
  { intros p Hp. apply elem_of_app in Hp as [Hp|Hp].
    - destruct Hpre as [(-> & ? & ?)|[-> _]]; [|inversion Hp].
      apply list_elem_of_singleton in Hp as [= ->]. auto.
    - apply elem_of_cons in Hp as [[=]|Hp].
      apply list_elem_of_singleton in Hp. discriminate. }
  destruct (is_disconnect o); cbn [snd]; [eauto|].
  destruct (IH w1) as (evs & IH1 & IH2).
  exists ((pre ++ [Opened q; Logged msg]) ++ evs).
  rewrite IH1, Hev, <- !app_assoc. split; [reflexivity|].
  intros p Hp. rewrite app_assoc in Hp. apply elem_of_app in Hp as [Hp|Hp].
  - apply Hrm. exact Hp.
  - apply IH2, Hp.
Qed.

(** A call of [download] is a pass over the files of the range in a fresh
    session, closed with [Quit] when no transfer was cut. *)
Lemma download_pass s e b flag w :
  ∃ w1, data w1
        = data (download_files b (all_paths s e) (emit Connected w)).2
    ∧ download s e b flag w
      = match (download_files b (all_paths s e) (emit Connected w)).1 with
        | Some f => ((Some f, true), w1)
        | None => ((None, false), emit Quit w1)
        end.
Proof.
  unfold download, all_paths.
  destruct (download_dates_flat b (all_dates s e) (emit Connected w)) as [E1 E2].
  destruct (download_dates b (all_dates s e) (emit Connected w)) as [r w1].
  cbn [fst snd] in E1, E2. exists w1. split; [assumption|].
  rewrite <- E1. destruct r; reflexivity.
Qed.

Lemma data_files w1 w2 : data w1 = data w2 → files w1 = files w2.
Proof. intros [= ? ? ?]. assumption. Qed.

Lemma data_events w1 w2 : data w1 = data w2 → events w1 = events w2.
Proof. intros [= ? ? ?]. assumption. Qed.




Lemma retry_loop_stops fuel s e b w :
  retry_loop fuel s e b false w = Some (b, w).
Proof. destruct fuel; reflexivity. Qed.


(** A file that is there and is not the recorded one is untouched by the
    whole loop. *)
Lemma retry_loop_frame fuel s e b fl w b' w' p c :
  retry_loop fuel s e b fl w = Some (b', w') →
  files w !! p = Some c → b ≠ Some p →
  files w' !! p = Some c
  ∧ ∃ evs, events w' = events w ++ evs ∧ Forall (fun ev => ¬ touches p ev) evs.
Proof.
  revert b fl w. induction fuel as [|fuel IH]; intros b fl w H Hc Hb.
  { destruct fl; [discriminate|]. injection H as <- <-.
    split; [assumption|]. exists []. rewrite app_nil_r. auto. }
  destruct fl.
  2:{ injection H as <- <-. split; [assumption|].
      exists []. rewrite app_nil_r. auto. }
  cbn [retry_loop] in H.
  destruct (download_pass s e b true w) as (w1 & E & Ed). rewrite Ed in H.
  destruct (download_files_frame b (all_paths s e) (emit Connected w) p c Hc Hb)
    as (Hc1 & Hne & evs & Hev & Hno).
  rewrite <- (data_files _ _ E) in Hc1. rewrite <- (data_events _ _ E) in Hev.
  destruct (download_files b (all_paths s e) (emit Connected w)) as [[f|] wf];
    cbn [fst snd] in *.
  - destruct (IH (Some f) true (print_log "Reconnected ..." w1) H Hc1 Hne)
      as (Hc' & evs' & Hev' & Hno').
    split; [assumption|].
    exists (Connected :: evs ++ Logged "Reconnected ..." :: evs').
    cbn in Hev'. rewrite Hev', Hev. cbn. rewrite <- !app_assoc. cbn.
    split; [reflexivity|].
    constructor; [intros [[=]|[=]]|]. apply Forall_app. split; [assumption|].
    constructor; [intros [[=]|[=]]|assumption].
  - rewrite retry_loop_stops in H. injection H as <- <-.
    split; [assumption|].
    exists (Connected :: evs ++ [Quit; Logged "Reconnected ..."]).
    cbn. rewrite Hev. cbn. rewrite <- !app_assoc. cbn. split; [reflexivity|].
    constructor; [intros [[=]|[=]]|]. apply Forall_app. split; [assumption|].
    repeat constructor; intros [[=]|[=]].
Qed.





(** C10. A file that is there and is not the recorded one is skipped by the
    body of the loop; it keeps its content through every call of [download]
    and through the whole retry loop, during which it is neither removed nor
    opened for writing; the only file that a pass removes is the recorded
    one. *)
Theorem download_preserves :
  (∀ b p w, is_Some (files w !! p) → b ≠ Some p →
     download_file b p w = (None, w))
  ∧ (∀ s e b flag w p c,
       files w !! p = Some c → b ≠ Some p →
       files (download s e b flag w).2 !! p = Some c
       ∧ ∃ evs, events (download s e b flag w).2 = events w ++ evs
                ∧ Forall (fun ev => ¬ touches p ev) evs)
  ∧ (∀ s e b flag w,
       ∃ evs, events (download s e b flag w).2 = events w ++ evs
              ∧ ∀ p, Removed p ∈ evs → b = Some p)
  ∧ (∀ fuel s e b w b' w' p c,
       retry_loop fuel s e b true w = Some (b', w') →
       files w !! p = Some c → b ≠ Some p →
       files w' !! p = Some c
       ∧ ∃ evs, events w' = events w ++ evs
                ∧ Forall (fun ev => ¬ touches p ev) evs)
  ∧ (∀ fuel w b' w' p c,
       main fuel w = Some (b', w') → files w !! p = Some c →
       files w' !! p = Some c
       ∧ ∃ evs, events w' = events w ++ evs
                ∧ Forall (fun ev => ¬ touches p ev) evs).
Proof.
  split; [|split; [|split; [|split]]].
  - intros b p w Hp Hb.
    destruct (download_file_cases b p w)
      as [(_ & _ & E)|(pre & o & msg & w1 & _ & Hpre & _)]; [assumption|].
    destruct Hpre as [(_ & _ & ?)|[_ Hn]]; [congruence|].
    rewrite Hn in Hp. destruct Hp. discriminate.
  - intros s e b flag w p c Hc Hb.
    destruct (download_pass s e b flag w) as (w1 & E & ->).
    destruct (download_files_frame b (all_paths s e) (emit Connected w) p c Hc Hb)
      as (Hc1 & _ & evs & Hev & Hno).
    rewrite <- (data_files _ _ E) in Hc1. rewrite <- (data_events _ _ E) in Hev.
    cbn in Hev.
    destruct (download_files _ _ _).1; cbn [snd]; (split; [assumption|]).
    + exists (Connected :: evs). rewrite Hev, <- app_assoc. split; [reflexivity|].
      constructor; [intros [[=]|[=]]|assumption].
    + exists (Connected :: evs ++ [Quit]). cbn. rewrite Hev, <- !app_assoc.
      split; [reflexivity|]. constructor; [intros [[=]|[=]]|].
      apply Forall_app. split; [assumption|]. repeat constructor. intros [[=]|[=]].
  - intros s e b flag w.
    destruct (download_pass s e b flag w) as (w1 & E & ->).
    destruct (download_files_removes b (all_paths s e) (emit Connected w))
      as (evs & Hev & Hrm).
    rewrite <- (data_events _ _ E) in Hev. cbn in Hev.
    destruct (download_files _ _ _).1; cbn [snd].
    + exists (Connected :: evs). rewrite Hev, <- app_assoc. split; [reflexivity|].
      intros p Hp. apply elem_of_cons in Hp as [[=]|Hp]. apply Hrm, Hp.
    + exists (Connected :: evs ++ [Quit]). cbn. rewrite Hev, <- !app_assoc.
      split; [reflexivity|]. intros p Hp. apply elem_of_cons in Hp as [[=]|Hp].
      apply elem_of_app in Hp as [Hp|Hp]; [apply Hrm, Hp|].
      apply list_elem_of_singleton in Hp. discriminate.
  - intros *. apply retry_loop_frame.
  - intros fuel w b' w' p c H Hc. unfold main in H.
    destruct (retry_loop_frame _ _ _ _ _ _ _ _ p c H Hc) as (Hc' & evs & Hev & Hno);
      [discriminate|].
    split; [assumption|]. exists (Logged "Downloading ..." :: evs).
    cbn in Hev. rewrite Hev, <- app_assoc. split; [reflexivity|].
    constructor; [intros [[=]|[=]]|assumption].
Qed.

Lemma download_preserves_witness :
  let p := "GEFSv12/reanalysis/FV3_reanalysis/2004/01/01/gec00.t06z.pgrb2.20040101.0p25.f000" in
  let w := mkworld {[ p := "earlier session" ]} ∅ [EOFError "x"] [] in
  download_file None p w = (None, w)
  ∧ files (download 12418 12418 None true w).2 !! p = Some "earlier session".
Proof.
  intros p w. split.
  - apply (proj1 download_preserves None p w); [|discriminate].
    exists "earlier session". apply lookup_singleton_eq.
  - apply (proj1 (proj2 download_preserves) 12418%Z 12418%Z None true w p
             "earlier session"); [|discriminate].
    apply lookup_singleton_eq.
Defined.

End DownloadFacts.

Section DataExtras.
Import Calendar Data.

Lemma noon_hour u : u mod ns_per_day = Timedelta_H 12 → hour_of u = 12.
Proof.
  intros H. unfold hour_of.
  pose proof (Z.div_mod u ns_per_day ltac:(discriminate)) as E. rewrite H in E.
  set (q := u / ns_per_day) in *.
  change ns_per_day with (24 * ns_per_hour) in E.
  change (Timedelta_H 12) with (12 * ns_per_hour) in E.
  replace u with ((12 + q * 24) * ns_per_hour) by lia.
  rewrite Z.div_mul by discriminate. rewrite Z.mod_add by lia. reflexivity.
Qed.

Lemma noon_half_day u :
  u mod ns_per_day = Timedelta_H 12 → (Timedelta_H 12 | u).
Proof.
  intros H. exists (2 * (u / ns_per_day) + 1).
  pose proof (Z.div_mod u ns_per_day ltac:(discriminate)) as E. rewrite H in E.
  set (q := u / ns_per_day) in *.
  change ns_per_day with (2 * Timedelta_H 12) in E. lia.
Qed.

(** The valid time of a timestamp is the first noon at or after the
    timestamp plus six hours. *)
Lemma valid_time_cell_first_noon t v :
  valid_time_cell (Timestamp t) = Some v → first_noon t v.
Proof.
  unfold first_noon. intros H. apply valid_time_cell_spec in H as (b & Hb & ->).
  pose proof (ceil_ns_round_up (Timedelta_H 12) (t + Timedelta_H 6)
                Timedelta_H_12_pos) as Hc.
  pose proof (is_round_up_unique _ _ _ _ Hb Hc) as ->.
  pose proof (ceil_ns_lt (Timedelta_H 12) (t + Timedelta_H 6)
                Timedelta_H_12_pos) as Hlt.
  destruct Hb as (D & L & M).
  assert (Timedelta_H 6 = 6 * 3600000000000) as E6 by reflexivity.
  assert (Timedelta_H 12 = 12 * 3600000000000) as E12 by reflexivity.
  assert (Timedelta_H 30 = 30 * 3600000000000) as E30 by reflexivity.
  set (b := ceil_ns (t + Timedelta_H 6) (Timedelta_H 12)) in *.
  destruct (hour_of_half_day b D) as [(H0 & H12 & Hm)|(H12 & Hm)].
  - rewrite H0. cbn [Z.eqb]. eexists. split; [reflexivity|].
    split; [assumption|]. split; [lia|].
    intros u Hu Hle. pose proof (M u (noon_half_day u Hu) Hle) as Hbu.
    assert (u ≠ b) as Hne.
    { intros ->. rewrite (noon_hour _ Hu) in H0. discriminate. }
    destruct D as [k Hk]. destruct (noon_half_day u Hu) as [j Hj]. nia.
  - rewrite H12. cbn [Z.eqb]. eexists. split; [reflexivity|].
    split; [assumption|]. split; [lia|].
    intros u Hu Hle. apply M; [apply noon_half_day, Hu|assumption].
Qed.

Lemma find_valid_time_cell_of df vts r v :
  find_valid_time df = Some vts → (r, v) ∈ vts →
  r ∈ df ∧ valid_time_cell (observation_datetime r) = Some v.
Proof.
  intros H Hin. apply find_valid_time_rows in H.
  apply list_elem_of_lookup in Hin as [i Hi].
  destruct (Forall2_lookup_r _ _ _ _ _ H Hi) as (r' & Hr' & E & Hv).
  cbn in E, Hv. subst r'. split; [|assumption].
  eapply list_elem_of_lookup_2, Hr'.
Qed.

(** 12Z-to-12Z bucketing. [find_valid_time] gives every row of its table,
    row by row, a valid time that for a row with a timestamp is the first
    12:00 at or after its observation time plus six hours: it is at noon,
    between 6 and 30 hours after the observation, and no noon in between is
    skipped; so a later report never gets an earlier valid time. *)
Theorem find_valid_time_first_noon df vts :
  find_valid_time df = Some vts →
  Forall2 (fun r rv => rv.1 = r
             ∧ ∀ t, observation_datetime r = Timestamp t →
                    first_noon t rv.2) df vts
  ∧ (∀ r1 v1 t1 r2 v2 t2,
       (r1, Timestamp v1) ∈ vts → (r2, Timestamp v2) ∈ vts →
       observation_datetime r1 = Timestamp t1 →
       observation_datetime r2 = Timestamp t2 →
       t1 ≤ t2 → v1 ≤ v2).
Proof.
  intros H.
  assert (∀ r v t, (r, v) ∈ vts → observation_datetime r = Timestamp t →
                   first_noon t v) as Hrow.
  { intros r v t Hin Ht.
    destruct (find_valid_time_cell_of _ _ _ _ H Hin) as [_ Hc].
    rewrite Ht in Hc. apply valid_time_cell_first_noon, Hc. }
  split.
  - pose proof (proj1 (find_valid_time_rows _ _) H) as F.
    eapply Forall2_impl; [exact F|]. cbn. intros r rv [-> Hc].
    split; [reflexivity|]. intros t Ht. rewrite Ht in Hc.
    apply valid_time_cell_first_noon, Hc.
  - intros r1 v1 t1 r2 v2 t2 H1 H2 Ht1 Ht2 Hle.
    destruct (Hrow _ _ _ H1 Ht1) as (t1' & [= <-] & _ & _ & Hleast).
    destruct (Hrow _ _ _ H2 Ht2) as (t2' & [= <-] & Hnoon & [Hlo _] & _).
    apply Hleast; [assumption|lia].
Qed.

Lemma find_valid_time_first_noon_witness :
  let r1 := mkreport 1 3 (Timestamp (utc 2013 5 20 5 59)) in
  let r2 := mkreport 4 3 (Timestamp (utc 2013 5 20 6 1)) in
  let vts := [(r1, Timestamp (utc 2013 5 20 12 0));
              (r2, Timestamp (utc 2013 5 21 12 0))] in
  find_valid_time [r1; r2] = Some vts
  ∧ Forall2 (fun r rv => rv.1 = r
               ∧ ∀ t, observation_datetime r = Timestamp t →
                      first_noon t rv.2) [r1; r2] vts.
Proof.
  intros r1 r2 vts. split; [vm_compute; reflexivity|].
  apply (proj1 (find_valid_time_first_noon [r1; r2] vts eq_refl)).
Defined.

(** The three filters of the cleaning chain commute and each is idempotent,
    so the cleaned table does not depend on the order in which the chain
    applies them: it is [find_valid_time] of the rows that pass all three
    tests. *)
Theorem filters_commute df scale tz year :
  filter_by_year (filter_non_central_time_reports df tz) year
  = filter_non_central_time_reports (filter_by_year df year) tz
  ∧ filter_by_year (drop_unknown_f_or_ef_scales df scale) year
    = drop_unknown_f_or_ef_scales (filter_by_year df year) scale
  ∧ filter_non_central_time_reports (drop_unknown_f_or_ef_scales df scale) tz
    = drop_unknown_f_or_ef_scales (filter_non_central_time_reports df tz) scale
  ∧ drop_unknown_f_or_ef_scales (drop_unknown_f_or_ef_scales df scale) scale
    = drop_unknown_f_or_ef_scales df scale
  ∧ filter_non_central_time_reports (filter_non_central_time_reports df tz) tz
    = filter_non_central_time_reports df tz
  ∧ filter_by_year (filter_by_year df year) year = filter_by_year df year
  ∧ get_clean_and_save_tornado_reports df
    = find_valid_time
        (filter (fun r => f_or_ef_scale r ≠ -9 ∧ timezone r = 3
                          ∧ ge_year (dt_year (observation_datetime r)) 1990
                            = true) df).
Proof.
  unfold get_clean_and_save_tornado_reports.
  unfold filter_by_year, filter_non_central_time_reports,
    drop_unknown_f_or_ef_scales, DataFrame in *.
  rewrite !list_filter_filter.
  repeat split; try (apply list_filter_iff; intros r; tauto).
  f_equal. apply list_filter_iff. intros r. tauto.
Qed.

(** The cleaned table holds exactly the reports of the input with a known
    scale, logged in timezone 3 and dated 1990 or later, each once for each
    time it occurs in the input and in the input's order, each with its
    valid time. *)
Theorem get_clean_and_save_tornado_reports_rows df out :
  get_clean_and_save_tornado_reports df = Some out →
  out.*1 `sublist_of` df
  ∧ (∀ r, r ∈ out.*1 ↔
          r ∈ df ∧ f_or_ef_scale r ≠ -9 ∧ timezone r = 3
          ∧ ∃ t, observation_datetime r = Timestamp t
                 ∧ 1990 ≤ year (civil_from_days (t / ns_per_day)))
  ∧ (∀ r v, (r, v) ∈ out →
       valid_time_cell (observation_datetime r) = Some v).
Proof.
  intros H.
  assert (out.*1 = filter_by_year
                     (filter_non_central_time_reports
                        (drop_unknown_f_or_ef_scales df (-9)) 3) 1990) as E.
  { unfold get_clean_and_save_tornado_reports in H.
    apply find_valid_time_rows in H. revert H.
    generalize (filter_by_year
                  (filter_non_central_time_reports
                     (drop_unknown_f_or_ef_scales df (-9)) 3) 1990).
    intros l F. induction F as [|r [r' v] l out' [Hr _] _ IH]; [reflexivity|].
    cbn in *. subst r'. rewrite IH. reflexivity. }
  split; [|split].
  - rewrite E. unfold filter_by_year, filter_non_central_time_reports,
      drop_unknown_f_or_ef_scales.
    etrans; [apply sublist_filter|]. etrans; apply sublist_filter.
  - intros r. rewrite E. unfold filter_by_year, filter_non_central_time_reports,
      drop_unknown_f_or_ef_scales.
    unfold DataFrame in *. rewrite !list_elem_of_filter. split.
    + intros (Hy & Htz & Hs & Hin). repeat split; try assumption.
      destruct (observation_datetime r) as [|t]; [discriminate|].
      exists t. split; [reflexivity|]. cbn in Hy. apply Z.leb_le, Hy.
    + intros (Hin & Hs & Htz & t & Ht & Hy). repeat split; try assumption.
      rewrite Ht. cbn. apply Z.leb_le, Hy.
  - intros r v Hin. unfold get_clean_and_save_tornado_reports in H.
    apply (find_valid_time_cell_of _ _ _ _ H Hin).
Qed.

Lemma get_clean_and_save_tornado_reports_rows_witness :
  let keep := mkreport 2 3 (Timestamp (utc 1999 5 3 23 30)) in
  let df := [mkreport (-9) 3 (Timestamp (utc 1999 5 3 22 0)); keep;
             mkreport 1 9 (Timestamp (utc 2003 5 4 22 0));
             mkreport 1 3 (Timestamp (utc 1989 12 31 23 0));
             mkreport 1 3 NaT] in
  [keep] `sublist_of` df.
Proof.
  intros keep df.
  apply (proj1 (get_clean_and_save_tornado_reports_rows df
                  [(keep, Timestamp (utc 1999 5 4 12 0))] eq_refl)).
Defined.

End DataExtras.

Section ReforecastExtras.
Import Python Calendar Reforecast.
#[local] Open Scope float_scope.

Lemma leb_total x y :
  is_nan x = false → is_nan y = false → (y <? x) = false → (x <=? y) = true.
Proof.
  intros Nx Ny H. destruct (x <? y) eqn:E; [apply ltb_leb, E|].
  destruct (ltb_total _ _ E H) as [N|[N|Q]]; [congruence..|].
  apply eqb_leb, Q.
Qed.

Lemma py_min_least x l :
  Forall (fun y => is_nan y = false) (x :: l) →
  ∃ m, py_min (x :: l) = Return m ∧ least m (x :: l).
Proof.
  cbn [py_min]. intros N. eexists. split; [reflexivity|].
  revert x N. induction l as [|z l IH]; intros x N.
  - cbn. apply Forall_cons in N as [Nx _]. split; [apply list_elem_of_here|].
    intros y Hy. apply list_elem_of_singleton in Hy as ->.
    apply leb_refl, Nx.
  - cbn [foldl]. apply Forall_cons in N as [Nx N].
    pose proof N as N'. apply Forall_cons in N' as [Nz Nl].
    set (c := if z <? x then z else x).
    assert (is_nan c = false ∧ (c <=? x) = true ∧ (c <=? z) = true
            ∧ (c = x ∨ c = z)) as (Nc & Hx & Hz & Hc).
    { subst c. destruct (z <? x) eqn:E.
      - auto using ltb_leb, leb_refl.
      - auto using leb_total, leb_refl. }
    destruct (IH c) as [Hin Hle]; [constructor; assumption|].
    split.
    + apply elem_of_cons in Hin as [->|Hin].
      * destruct Hc as [->| ->];
          [apply list_elem_of_here
          |apply list_elem_of_further, list_elem_of_here].
      * do 2 apply list_elem_of_further. exact Hin.
    + intros y Hy.
      pose proof (Hle _ (list_elem_of_here _ _)) as H0.
      apply elem_of_cons in Hy as [->|Hy]; [eapply leb_trans; eassumption|].
      apply elem_of_cons in Hy as [->|Hy]; [eapply leb_trans; eassumption|].
      apply Hle, list_elem_of_further, Hy.
Qed.

Lemma py_max_greatest x l :
  Forall (fun y => is_nan y = false) (x :: l) →
  ∃ m, py_max (x :: l) = Return m ∧ greatest m (x :: l).
Proof.
  cbn [py_max]. intros N. eexists. split; [reflexivity|].
  revert x N. induction l as [|z l IH]; intros x N.
  - cbn. apply Forall_cons in N as [Nx _]. split; [apply list_elem_of_here|].
    intros y Hy. apply list_elem_of_singleton in Hy as ->.
    apply leb_refl, Nx.
  - cbn [foldl]. apply Forall_cons in N as [Nx N].
    pose proof N as N'. apply Forall_cons in N' as [Nz Nl].
    unfold gtb at 2. set (c := if x <? z then z else x).
    assert (is_nan c = false ∧ (x <=? c) = true ∧ (z <=? c) = true
            ∧ (c = x ∨ c = z)) as (Nc & Hx & Hz & Hc).
    { subst c. destruct (x <? z) eqn:E.
      - auto using ltb_leb, leb_refl.
      - auto using leb_total, leb_refl. }
    destruct (IH c) as [Hin Hle]; [constructor; assumption|].
    split.
    + apply elem_of_cons in Hin as [->|Hin].
      * destruct Hc as [->| ->];
          [apply list_elem_of_here
          |apply list_elem_of_further, list_elem_of_here].
      * do 2 apply list_elem_of_further. exact Hin.
    + intros y Hy.
      pose proof (Hle _ (list_elem_of_here _ _)) as H0.
      apply elem_of_cons in Hy as [->|Hy]; [eapply leb_trans; eassumption|].
      apply elem_of_cons in Hy as [->|Hy]; [eapply leb_trans; eassumption|].
      apply Hle, list_elem_of_further, Hy.
Qed.

(** [create_selection_dict] takes sequences of any length.  When one of
    them is empty [min] or [max] raises [ValueError] before pandas is
    called.  Otherwise, when no item is NaN, the latitude slice starts at
    an item that no item exceeds and stops at an item that exceeds none,
    the longitude slice goes the other way, and the step slice holds what
    pandas makes of the least and of the greatest forecast day; the call
    raises what pandas raises. *)
Theorem create_selection_dict_sequences (td : float → result Z) la lo fd :
  (la = [] ∨ lo = [] ∨ fd = [] →
   ∃ msg, create_selection_dict td la lo fd = Raise (ValueError msg []))
  ∧ (la ≠ [] → lo ≠ [] → fd ≠ [] →
     Forall (fun y => is_nan y = false) (la ++ lo ++ fd) →
     ∃ la_hi la_lo lo_lo lo_hi fd_lo fd_hi,
       (greatest la_hi la ∧ least la_lo la)
       ∧ (least lo_lo lo ∧ greatest lo_hi lo)
       ∧ (least fd_lo fd ∧ greatest fd_hi fd)
       ∧ create_selection_dict td la lo fd
         = bind (td fd_lo) (fun first =>
           bind (td fd_hi) (fun last =>
           Return (mkselection (mkslice la_hi la_lo) (mkslice lo_lo lo_hi)
                     (mkslice first last))))).
Proof.
  split.
  - unfold create_selection_dict.
    destruct la as [|a la]; [intros _; eexists; reflexivity|].
    destruct lo as [|o lo]; [intros _; eexists; reflexivity|].
    destruct fd as [|f fd]; [intros _; eexists; reflexivity|].
    intros [?|[?|?]]; discriminate.
  - intros Hla Hlo Hfd N. unfold create_selection_dict.
    destruct la as [|a la]; [contradiction|].
    destruct lo as [|o lo]; [contradiction|].
    destruct fd as [|f fd]; [contradiction|].
    apply Forall_app in N as [Nla N]. apply Forall_app in N as [Nlo Nfd].
    destruct (py_max_greatest a la Nla) as (la_hi & -> & ?).
    destruct (py_min_least a la Nla) as (la_lo & -> & ?).
    destruct (py_min_least o lo Nlo) as (lo_lo & -> & ?).
    destruct (py_max_greatest o lo Nlo) as (lo_hi & -> & ?).
    destruct (py_min_least f fd Nfd) as (fd_lo & -> & ?).
    destruct (py_max_greatest f fd Nfd) as (fd_hi & -> & ?).
    exists la_hi, la_lo, lo_lo, lo_hi, fd_lo, fd_hi. auto 10.
Qed.

Lemma create_selection_dict_sequences_witness :
  (∃ msg, create_selection_dict whole_nanoseconds [22; 55] [] [5.5; 6.5]
          = Raise (ValueError msg []))
  ∧ ∃ la_hi la_lo lo_lo lo_hi fd_lo fd_hi,
      (greatest la_hi [30; 55; 22] ∧ least la_lo [30; 55; 22])
      ∧ (least lo_lo [291; 230; 260] ∧ greatest lo_hi [291; 230; 260])
      ∧ (least fd_lo [6; 5.5; 6.5] ∧ greatest fd_hi [6; 5.5; 6.5])
      ∧ create_selection_dict whole_nanoseconds [30; 55; 22] [291; 230; 260]
          [6; 5.5; 6.5]
        = bind (whole_nanoseconds fd_lo) (fun first =>
          bind (whole_nanoseconds fd_hi) (fun last =>
          Return (mkselection (mkslice la_hi la_lo) (mkslice lo_lo lo_hi)
                    (mkslice first last)))).
Proof.
  split.
  - apply (proj1 (create_selection_dict_sequences whole_nanoseconds [22; 55]
                    [] [5.5; 6.5])).
    right. left. reflexivity.
  - apply (proj2 (create_selection_dict_sequences whole_nanoseconds
                    [30; 55; 22] [291; 230; 260] [6; 5.5; 6.5]));
      [discriminate..|repeat constructor].
Defined.

(** The three checks are made in order, latitude first: the error reports
    the latitude pair whenever [min] and [max] do not let the latitude
    pair through, the longitude pair only when the latitude pair passes,
    and the forecast-day pair only when both others pass. *)
Theorem check_bounds_first_failure la1 la2 lo1 lo2 fd1 fd2 :
  (¬ pair_accepted latitude_accepted la1 la2 →
   check_bounds [la1; la2] [lo1; lo2] [fd1; fd2]
   = Raise (ValueError "Latitude bounds need to be within -90 and 90, got: "
              [la1; la2]))
  ∧ (pair_accepted latitude_accepted la1 la2 →
     ¬ pair_accepted longitude_accepted lo1 lo2 →
     check_bounds [la1; la2] [lo1; lo2] [fd1; fd2]
     = Raise (ValueError "Longitude bounds must be positive and between 0-360 got: "
                [lo1; lo2]))
  ∧ (pair_accepted latitude_accepted la1 la2 →
     pair_accepted longitude_accepted lo1 lo2 →
     ¬ pair_accepted forecast_days_accepted fd1 fd2 →
     check_bounds [la1; la2] [lo1; lo2] [fd1; fd2]
     = Raise (ValueError "Forecast hour bounds must be between 0-16 days, got: "
                [fd1; fd2])).
Proof.
  destruct (check_bounds_cases la1 la2 lo1 lo2 fd1 fd2)
    as [(? & ->)|[(? & ? & ->)|[(? & ? & ? & ->)|(? & ? & ? & ->)]]];
    repeat split; intros; try reflexivity; tauto.
Qed.

Lemma check_bounds_first_failure_witness :
  check_bounds [-95; 10] [-10; 50] [0; 17]
  = Raise (ValueError "Latitude bounds need to be within -90 and 90, got: "
             [-95; 10])
  ∧ check_bounds [22; nan] [-10; 50] [0; 17]
    = Raise (ValueError "Longitude bounds must be positive and between 0-360 got: "
               [-10; 50]).
Proof.
  split.
  - apply (proj1 (check_bounds_first_failure (-95) 10 (-10) 50 0 17)).
    intros [[H _] _]. vm_compute in H. discriminate.
  - apply (proj1 (proj2 (check_bounds_first_failure 22 nan (-10) 50 0 17))).
    + split; [split; reflexivity|right; reflexivity].
    + intros [[H _] _]. vm_compute in H. discriminate.
Defined.

Lemma enumerate_object_keys_label s e f members var_names la1 la2 lo1 lo2
    fd1 fd2 dts :
  check_bounds [la1; la2] [lo1; lo2] [fd1; fd2] = Return tt →
  date_range s e f = Return dts →
  enumerate_object_keys s e f members var_names [la1; la2] [lo1; lo2]
    [fd1; fd2]
  = Return (globbed_list_of
              (if (if gtb fd2 fd1 then fd2 else fd1) <? 10
               then "Days:1-10" else "Days:10-16") dts var_names members).
Proof.
  intros Hc Hd. unfold enumerate_object_keys. rewrite Hc, Hd. cbn.
  destruct (_ <? 10); reflexivity.
Qed.

(** The horizon label of the keys is chosen by the greater forecast-day
    bound alone: "Days:1-10" when both bounds are below 10, "Days:10-16" as
    soon as one bound is 10 or more, whatever the other is. *)
Theorem enumerate_object_keys_horizon s e f members var_names la1 la2 lo1 lo2
    fd1 fd2 dts :
  check_bounds [la1; la2] [lo1; lo2] [fd1; fd2] = Return tt →
  date_range s e f = Return dts →
  ((fd1 <? 10) = true ∧ (fd2 <? 10) = true →
   enumerate_object_keys s e f members var_names [la1; la2] [lo1; lo2]
     [fd1; fd2]
   = Return (globbed_list_of "Days:1-10" dts var_names members))
  ∧ (geb fd1 10 = true ∨ geb fd2 10 = true →
     enumerate_object_keys s e f members var_names [la1; la2] [lo1; lo2]
       [fd1; fd2]
     = Return (globbed_list_of "Days:10-16" dts var_names members)).
Proof.
  intros Hc Hd.
  rewrite (enumerate_object_keys_label _ _ _ _ _ _ _ _ _ _ _ _ Hc Hd).
  unfold gtb, geb. split; intros H.
  - assert (((if fd1 <? fd2 then fd2 else fd1) <? 10) = true) as ->;
      [|reflexivity].
    destruct (fd1 <? fd2); tauto.
  - assert (((if fd1 <? fd2 then fd2 else fd1) <? 10) = false) as ->;
      [|reflexivity].
    destruct (fd1 <? fd2) eqn:E; destruct H as [H|H].
    + apply ltb_asym. eapply leb_ltb_trans; eassumption.
    + apply leb_not_ltb, H.
    + apply leb_not_ltb, H.
    + destruct (fd1 <? 10) eqn:E'; [|reflexivity].
      rewrite (ltb_leb_trans _ _ _ E' H) in E. discriminate.
Qed.

Lemma enumerate_object_keys_horizon_witness :
  enumerate_object_keys 10957 10957 1 ["c00"] ["cape_sfc"] [22; 55]
    [230; 291] [5; 12]
  = Return (globbed_list_of "Days:10-16" [10957%Z] ["cape_sfc"] ["c00"]).
Proof.
  apply (proj2 (enumerate_object_keys_horizon 10957 10957 1 ["c00"]
                  ["cape_sfc"] 22 55 230 291 5 12 [10957%Z] eq_refl eq_refl)).
  right. reflexivity.
Defined.

(** With a positive stride the orchestrator hands the pool
    (floor((end - start) / stride) + 1) x variables x members keys when the
    end date is not before the start date, and none when it is; with none,
    it goes straight to the merge and its result is the merge's. *)
Theorem enumerate_object_keys_count {Dataset bytes : Type}
    (lib : @library Dataset bytes) names merge s e f members var_names la1
    la2 lo1 lo2 fd1 fd2 local_save_dir final_save_path w :
  check_bounds [la1; la2] [lo1; lo2] [fd1; fd2] = Return tt →
  (0 < f)%Z →
  ∃ keys,
    enumerate_object_keys s e f members var_names [la1; la2] [lo1; lo2]
      [fd1; fd2] = Return keys
    ∧ ((s ≤ e)%Z →
       length keys
       = ((Z.to_nat ((e - s) / f) + 1)
          * (length var_names * length members))%nat)
    ∧ ((e < s)%Z →
       keys = []
       ∧ get_and_process_reforecast_data lib names merge s e f members
           var_names [la1; la2] [lo1; lo2] [fd1; fd2] local_save_dir
           final_save_path w
         = (merge local_save_dir final_save_path w, w)).
Proof.
  intros Hc Hf.
  destruct (date_range_lookup s e f ltac:(lia)) as (dts & Hd & Hlen & _).
  eexists. split; [apply (enumerate_object_keys_label _ _ _ _ _ _ _ _ _ _ _ _ Hc Hd)|].
  split.
  - intros Hse. rewrite globbed_list_of_length, Hlen.
    assert (0 ≤ (e - s) / f)%Z by (apply Z.div_pos; lia).
    f_equal. lia.
  - intros Hes.
    assert (dts = []) as ->.
    { apply length_zero_iff_nil. rewrite Hlen.
      assert ((e - s) / f < 0)%Z by (apply Z.div_lt_upper_bound; lia). lia. }
    split; [reflexivity|].
    unfold get_and_process_reforecast_data.
    rewrite (enumerate_object_keys_label _ _ _ _ _ _ _ _ _ _ _ _ Hc Hd).
    reflexivity.
Qed.

Lemma enumerate_object_keys_count_witness :
  ∃ keys,
    enumerate_object_keys 10957 10970 7 ["c00"; "p01"] ["cape_sfc"] [22; 55]
      [230; 291] [5; 6] = Return keys
    ∧ ((10957 ≤ 10970)%Z → length keys = ((Z.to_nat ((10970 - 10957) / 7) + 1)
                                          * (1 * 2))%nat)
    ∧ ((10970 < 10957)%Z →
       keys = []
       ∧ get_and_process_reforecast_data plain_library module_names
           (fun _ _ _ => Return tt) 10957 10970 7 ["c00"; "p01"] ["cape_sfc"]
           [22; 55] [230; 291] [5; 6] "./reforecast_v3" "./combined.nc"
           (mkworld ∅ [])
         = (Return tt, mkworld ∅ [])).
Proof.
  apply (enumerate_object_keys_count plain_library module_names
           (fun _ _ _ => Return tt)
           10957 10970 7 ["c00"; "p01"] ["cape_sfc"] 22 55 230 291 5 6
           "./reforecast_v3" "./combined.nc" (mkworld ∅ []) eq_refl).
  lia.
Defined.

Lemma forallb_elem_of {A} (f : A → bool) (l : list A) x :
  forallb f l = true → x ∈ l → f x = true.
Proof.
  intros H Hx. apply list_elem_of_In in Hx.
  exact (proj1 (forallb_forall f l) H x Hx).
Qed.

(** On the quarter-degree longitudes of [0, 360), in binary64, the
    normalisation keeps the eastern half and shifts the western half down
    by 360; shifting a quarter-degree longitude of [-180, 360) up by 360
    does not change its image; and no two quarter-degree longitudes of
    [0, 360) have the same image. *)
Theorem normalize_longitude_halves :
  (∀ x, x ∈ quarter_degrees 0 720 → normalize_longitude x = x)
  ∧ (∀ x, x ∈ quarter_degrees 720 720 → normalize_longitude x = x - 360)
  ∧ (∀ x, x ∈ quarter_degrees (-720) 2160 →
          normalize_longitude (x + 360) = normalize_longitude x)
  ∧ (∀ x y, x ∈ quarter_degrees 0 1440 → y ∈ quarter_degrees 0 1440 →
            normalize_longitude x = normalize_longitude y → x = y).
Proof.
  split; [|split; [|split]].
  - intros x Hx. apply Leibniz.eqb_spec.
    refine (forallb_elem_of (fun x => Leibniz.eqb (normalize_longitude x) x)
              _ x _ Hx).
    vm_compute. reflexivity.
  - intros x Hx. apply Leibniz.eqb_spec.
    refine (forallb_elem_of
              (fun x => Leibniz.eqb (normalize_longitude x) (x - 360))
              _ x _ Hx).
    vm_compute. reflexivity.
  - intros x Hx. apply Leibniz.eqb_spec.
    refine (forallb_elem_of
              (fun x => Leibniz.eqb (normalize_longitude (x + 360))
                          (normalize_longitude x))
              _ x _ Hx).
    vm_compute. reflexivity.
  - assert (∀ x, x ∈ quarter_degrees 0 1440 →
              (let y := normalize_longitude x in
               if y <? 0 then y + 360 else y) = x) as Hinv.
    { intros x Hx. apply Leibniz.eqb_spec.
      refine (forallb_elem_of
                (fun x => Leibniz.eqb
                            (let y := normalize_longitude x in
                             if y <? 0 then y + 360 else y) x)
                _ x _ Hx).
      vm_compute. reflexivity. }
    intros x y Hx Hy E.
    rewrite <- (Hinv x Hx), <- (Hinv y Hy). cbv zeta. rewrite E. reflexivity.
Qed.

Lemma normalize_longitude_halves_witness :
  normalize_longitude 269.75 = 269.75 - 360.
Proof.
  apply (proj1 (proj2 normalize_longitude_halves)).
  apply (list_elem_of_lookup_2 _ 359). vm_compute. reflexivity.
Defined.

End ReforecastExtras.

Section DownloadExtras.
Import Python Calendar Download.
#[local] Open Scope nat_scope.

Lemma download_files_skips b ps w :
  (∀ q, q ∈ ps → is_Some (files w !! q) ∧ b ≠ Some q) →
  download_files b ps w = (None, w).
Proof.
  induction ps as [|p ps IH]; intros H; [reflexivity|].
  cbn [download_files].
  destruct (H p (list_elem_of_here _ _)) as [Hp Hb].
  destruct (download_file_cases b p w)
    as [(_ & _ & ->)|(pre & o & msg & w1 & _ & Hpre & _)].
  - apply IH. intros q Hq. apply H, list_elem_of_further, Hq.
  - destruct Hpre as [(_ & _ & ?)|[_ Hn]]; [contradiction|].
    rewrite Hn in Hp. destruct Hp. discriminate.
Qed.

(** Running the downloader again over a range that is all there, with no
    file recorded, transfers nothing: the session is opened and closed, every
    file keeps its content and the pass reports completion. *)
Theorem download_again s e b flag w :
  (∀ q, q ∈ all_paths s e → is_Some (files w !! q) ∧ b ≠ Some q) →
  ∃ w', download s e b flag w = ((None, false), w')
        ∧ files w' = files w ∧ network w' = network w
        ∧ events w' = events w ++ [Connected; Quit].
Proof.
  intros H. destruct (download_pass s e b flag w) as (w1 & E & ->).
  rewrite (download_files_skips b (all_paths s e) (emit Connected w)) in E |- *
    by exact H.
  cbn [fst snd] in *. injection E as Ef En Ee.
  eexists. split; [reflexivity|]. cbn. rewrite Ef, En, Ee. cbn.
  rewrite <- app_assoc. auto.
Qed.

Lemma download_again_witness :
  let ps := all_paths 12418 12418 in
  let w := mkworld (list_to_map ((fun p => (p, "x")) <$> ps)) ∅
             [EOFError "y"] [] in
  ∃ w', download 12418 12418 None true w = ((None, false), w')
        ∧ files w' = files w ∧ network w' = network w
        ∧ events w' = events w ++ [Connected; Quit].
Proof.
  intros ps w. apply (download_again 12418 12418 None true w).
  intros q Hq. split; [|discriminate].
  vm_compute in Hq. vm_compute.
  repeat (apply elem_of_cons in Hq as [->|Hq]; [eexists; reflexivity|]).
  inversion Hq.
Defined.

(** An empty range, the end date before the start date: the pass opens and
    closes the session and does nothing else, and the retry loop ends after
    this one pass. *)
Theorem download_empty_range s e b flag w :
  (e < s)%Z →
  download s e b flag w = ((None, false), emit Quit (emit Connected w))
  ∧ ∀ fuel,
      retry_loop (S fuel) s e b true w
      = Some (None, print_log "Reconnected ..." (emit Quit (emit Connected w))).
Proof.
  intros H.
  assert (download s e b true w = ((None, false), emit Quit (emit Connected w))
          ∧ download s e b flag w
            = ((None, false), emit Quit (emit Connected w))) as [E1 E2].
  { unfold download, all_dates.
    replace (Z.to_nat (e - s + 1)) with 0 by lia. split; reflexivity. }
  split; [exact E2|]. intros fuel. cbn [retry_loop]. rewrite E1.
  apply retry_loop_stops.
Qed.

Lemma download_empty_range_witness :
  download 12419 12418 None true (mkworld ∅ ∅ [EOFError "y"] [])
  = ((None, false), mkworld ∅ ∅ [EOFError "y"] [Connected; Quit]).
Proof.
  apply (proj1 (download_empty_range 12419 12418 None true
                  (mkworld ∅ ∅ [EOFError "y"] []) ltac:(lia))).
Defined.

Lemma download_keeps s e b flag w q :
  is_Some (files w !! q) → is_Some (files (download s e b flag w).2 !! q).
Proof.
  intros Hq. destruct (download_pass s e b flag w) as (w1 & E & ->).
  pose proof (download_files_keeps b (all_paths s e) (emit Connected w) q Hq) as K.
  rewrite <- (data_files _ _ E) in K.
  destruct (download_files _ _ _).1; exact K.
Qed.

(** No file is lost: a file that is there before a call of [download], or
    before the retry loop, is there after it (the recorded file is removed
    only to be opened again at once). *)
Theorem download_never_loses :
  (∀ s e b flag w q,
     is_Some (files w !! q) → is_Some (files (download s e b flag w).2 !! q))
  ∧ (∀ fuel s e b flag w b' w' q,
       retry_loop fuel s e b flag w = Some (b', w') →
       is_Some (files w !! q) → is_Some (files w' !! q)).
Proof.
  split; [apply download_keeps|].
  induction fuel as [|fuel IH]; intros s e b flag w b' w' q H Hq.
  - destruct flag; [discriminate|]. injection H as <- <-. exact Hq.
  - destruct flag; [|injection H as <- <-; exact Hq].
    cbn [retry_loop] in H.
    pose proof (download_keeps s e b true w q Hq) as K.
    destruct (download s e b true w) as [[b1 f1] w1]. cbn [snd] in K.
    eapply IH; [exact H|exact K].
Qed.

Lemma download_never_loses_witness :
  is_Some (files (download 12418 12418 (Some "old") true
                    (mkworld {[ "old" := "bytes" ]} ∅ [] [])).2 !! "old").
Proof.
  apply (proj1 download_never_loses). vm_compute. eexists. reflexivity.
Defined.

Lemma app_split_at {A} (l chunk pre post : list A) a :
  l ++ chunk = pre ++ a :: post →
  (∃ post_l, l = pre ++ a :: post_l ∧ post = post_l ++ chunk)
  ∨ (∃ pre_c, pre = l ++ pre_c ∧ chunk = pre_c ++ a :: post).
Proof.
  revert pre. induction l as [|b l IH]; intros pre E.
  - right. exists pre. auto.
  - destruct pre as [|c pre]; cbn in E; injection E as -> E.
    + left. exists l. auto.
    + destruct (IH _ E) as [(post_l & -> & ->)|(pre_c & -> & ->)].
      * left. exists post_l. auto.
      * right. exists pre_c. auto.
Qed.

(** Events that open no file leave [transfers_done] as it is. *)
Lemma transfers_done_quiet x evs chunk :
  transfers_done x evs → (∀ p, Opened p ∉ chunk) →
  transfers_done x (evs ++ chunk).
Proof.
  intros H Hq p pre post E Hp.
  destruct (app_split_at _ _ _ _ _ E) as [(post_l & -> & ->)|(pre_c & _ & ->)].
  - destruct (H p pre post_l eq_refl) as [(post' & ->)|Hx]; [|eauto|auto].
    intros Hin. apply Hp, elem_of_app. auto.
  - exfalso. apply (Hq p), elem_of_app. right. apply list_elem_of_here.
Qed.

(** The events of one transfer into [p]. *)
Lemma transfers_done_open x x' evs pre p msg :
  transfers_done x evs → x = None ∨ x = Some p →
  (∀ q, Opened q ∉ pre) →
  msg = success_message p ∨ x' = Some p →
  transfers_done x' (evs ++ pre ++ [Opened p; Logged msg]).
Proof.
  intros H Hx Hpre Hmsg q pre0 post0 E Hq.
  destruct (app_split_at _ _ _ _ _ E) as [(post_l & -> & ->)|(pre_c & _ & E')].
  - assert (q ≠ p) as Hne.
    { intros ->. apply Hq. rewrite !elem_of_app. right. right.
      apply list_elem_of_here. }
    destruct (H q pre0 post_l eq_refl) as [(post' & ->)|Hxq].
    + intros Hin. apply Hq, elem_of_app. auto.
    + left. eexists. reflexivity.
    + destruct Hx as [Hx|Hx]; congruence.
  - destruct (app_split_at _ _ _ _ _ E') as [(post_l & -> & _)|(pre_c' & _ & E'')].
    { exfalso. apply (Hpre q), elem_of_app. right. apply list_elem_of_here. }
    destruct pre_c' as [|a [|b pre_c']]; cbn in E''.
    + injection E'' as -> <-. destruct Hmsg as [-> | ->]; [left|right]; eauto.
    + discriminate.
    + injection E'' as _ _ E''. destruct pre_c'; discriminate.
Qed.

(** The events of one step of the loop. *)
Lemma download_file_log b p w :
  download_file b p w = (None, w)
  ∨ ∃ pre msg,
      (pre = [] ∨ pre = [Removed p])
      ∧ events (download_file b p w).2
        = events w ++ pre ++ [Opened p; Logged msg]
      ∧ ((download_file b p w).1 = None ∧ msg = success_message p
         ∨ (download_file b p w).1 = Some p).
Proof.
  unfold download_file, print_log, success_message.
  destruct (exists_ p w) eqn:Ex; unfold exists_ in Ex.
  - apply bool_decide_eq_true in Ex.
    destruct (bool_decide (b = Some p)) eqn:Eb; cbn [andb].
    + right.
      assert (exists_ p (remove p w) = false) as ->.
      { unfold exists_, remove. cbn. apply bool_decide_eq_false.
        rewrite lookup_delete_eq. intros [? ?]; discriminate. }
      unfold next_outcome. cbn.
      destruct (network w) as [|[d|d|d] os]; eexists [Removed p], _;
        (split; [auto|]); cbv [emit write remove events files dirs network fst snd];
        (split; [rewrite <- !app_assoc; reflexivity|]); auto.
    + left. unfold exists_. rewrite (bool_decide_eq_true_2 _ Ex). reflexivity.
  - apply bool_decide_eq_false in Ex. cbn [andb]. right.
    unfold exists_. rewrite (bool_decide_eq_false_2 _ Ex).
    unfold next_outcome. cbn.
    destruct (network w) as [|[d|d|d] os]; eexists [], _;
      (split; [auto|]); cbv [emit write remove events files dirs network fst snd];
      (split; [rewrite <- !app_assoc; reflexivity|]); auto.
Qed.

Lemma no_Opened_pre p pre :
  pre = [] ∨ pre = [Removed p] → ∀ q, Opened q ∉ pre.
Proof.
  intros [-> | ->] q Hq; [inversion Hq|].
  apply list_elem_of_singleton in Hq. discriminate.
Qed.

(** One step of the loop, from a state in which no transfer is pending or
    the pending one is that of the file of the step. *)
Lemma download_file_settled w0 x b p w :
  settled w0 x w →
  x = None ∨ (x = Some p ∧ b = Some p ∧ is_Some (files w !! p)) →
  settled w0 (download_file b p w).1 (download_file b p w).2.
Proof.
  intros (evs & Hev & Hdone & Hnew) Hx.
  destruct (download_file_cases b p w)
    as [(Hp & Hb & E)|(pre & o & msg & w1 & E & _ & _ & Hev1 & Hfs & _)].
  { rewrite E. cbn [fst snd]. destruct Hx as [-> |(_ & ? & _)]; [|congruence].
    exists evs. auto. }
  destruct (download_file_log b p w) as [E'|(pre' & msg' & Hpre & Hev' & Hr)].
  { exfalso. rewrite E' in E. injection E as _ <-.
    apply (f_equal length) in Hev1. rewrite !length_app in Hev1. cbn in Hev1.
    lia. }
  rewrite E in Hev', Hr |- *. cbn [fst snd] in *.
  exists (evs ++ pre' ++ [Opened p; Logged msg']). split; [|split].
  - rewrite Hev', Hev, <- !app_assoc. reflexivity.
  - apply (transfers_done_open x); [exact Hdone| |apply (no_Opened_pre p), Hpre|].
    + destruct Hx as [-> |(-> & _)]; auto.
    + destruct (is_disconnect o); destruct Hr as [[? ->]|?]; auto; discriminate.
  - intros q Hq0 Hq. rewrite Hfs in Hq.
    destruct (decide (p = q)) as [->|N].
    + rewrite !elem_of_app. right. right. apply list_elem_of_here.
    + rewrite lookup_insert_ne in Hq by assumption.
      apply elem_of_app. left. apply Hnew; assumption.
Qed.

Lemma download_files_settled w0 b ps w :
  settled w0 None w →
  settled w0 (download_files b ps w).1 (download_files b ps w).2.
Proof.
  revert w. induction ps as [|p ps IH]; intros w H; [exact H|].
  cbn [download_files].
  pose proof (download_file_settled w0 None b p w H (or_introl eq_refl)) as Hp.
  destruct (download_file b p w) as [[f|] w1]; cbn [fst snd] in *;
    [exact Hp|apply IH, Hp].
Qed.

(** A pass that starts with the transfer into the recorded file [f]
    pending, every file before [f] being there. *)
Lemma download_files_settled_resume w0 f pre post w :
  settled w0 (Some f) w →
  (∀ q, q ∈ pre → is_Some (files w !! q)) → is_Some (files w !! f) →
  settled w0 (download_files (Some f) (pre ++ f :: post) w).1
    (download_files (Some f) (pre ++ f :: post) w).2.
Proof.
  intros Hinv Hpre Hf.
  assert (∀ rest,
            settled w0 (download_files (Some f) (f :: rest) w).1
              (download_files (Some f) (f :: rest) w).2) as Hstep.
  { intros rest. cbn [download_files].
    pose proof (download_file_settled w0 (Some f) (Some f) f w Hinv
                  (or_intror (conj eq_refl (conj eq_refl Hf)))) as Hp.
    destruct (download_file (Some f) f w) as [[g|] w1]; cbn [fst snd] in *;
      [exact Hp|apply download_files_settled, Hp]. }
  induction pre as [|p pre IH]; [apply Hstep|].
  destruct (decide (p = f)) as [->|N]; [apply (Hstep (pre ++ f :: post))|].
  cbn [app download_files].
  assert (is_Some (files w !! p)) as Hp by (apply Hpre, list_elem_of_here).
  destruct (download_file_cases (Some f) p w)
    as [(_ & _ & ->)|(pre' & o & msg & w1 & _ & Hpre' & _)].
  - apply IH. intros q Hq. apply Hpre, list_elem_of_further, Hq.
  - destruct Hpre' as [(_ & _ & [= ?])|[_ Hn]]; [congruence|].
    rewrite Hn in Hp. destruct Hp. discriminate.
Qed.

Lemma settled_quiet w0 x w w' chunk :
  settled w0 x w → files w' = files w → events w' = events w ++ chunk →
  (∀ p, Opened p ∉ chunk) → settled w0 x w'.
Proof.
  intros (evs & Hev & Hdone & Hnew) Hf He Hq.
  exists (evs ++ chunk). split; [|split].
  - rewrite He, Hev, <- app_assoc. reflexivity.
  - apply transfers_done_quiet; assumption.
  - intros q Hq0 Hq'. rewrite Hf in Hq'. apply elem_of_app. left.
    apply Hnew; assumption.
Qed.

Lemma retry_loop_settled w0 s e fuel b w b' w' :
  retry_loop fuel s e b true w = Some (b', w') →
  settled w0 None w
  ∨ (∃ f pre post,
       b = Some f ∧ settled w0 (Some f) w
       ∧ all_paths s e = pre ++ f :: post
       ∧ (∀ q, q ∈ pre → is_Some (files w !! q)) ∧ is_Some (files w !! f)) →
  b' = None ∧ settled w0 None w'.
Proof.
  revert b w. induction fuel as [|fuel IH]; intros b w H Hst; [discriminate|].
  cbn [retry_loop] in H.
  destruct (download_pass s e b true w) as (w1 & E & Ed). rewrite Ed in H.
  pose proof (download_files_ends b (all_paths s e) (emit Connected w)) as Hend.
  assert (∀ x, settled w0 x w → settled w0 x (emit Connected w)) as Hcon.
  { intros x Hx. apply (settled_quiet _ _ w _ [Connected]); [exact Hx|reflexivity..|].
    intros p Hp. apply list_elem_of_singleton in Hp. discriminate. }
  assert (settled w0 (download_files b (all_paths s e) (emit Connected w)).1
            (download_files b (all_paths s e) (emit Connected w)).2) as Hinv.
  { destruct Hst as [Hst|(f & pre & post & -> & Hst & Hsplit & Hpre & Hf)].
    - apply download_files_settled, Hcon, Hst.
    - rewrite Hsplit. apply download_files_settled_resume; [apply Hcon, Hst|..];
        assumption. }
  destruct (download_files b (all_paths s e) (emit Connected w)) as [[f|] wf];
    cbn [fst snd] in *.
  - apply (IH _ _ H). right.
    destruct Hend as (pre & post & o & Hsplit & Hall & _ & _ & Hf & _).
    exists f, pre, post. split; [reflexivity|].
    split.
    { apply (settled_quiet _ _ wf _ [Logged "Reconnected ..."]); [exact Hinv|..].
      - cbn. rewrite (data_files _ _ E). reflexivity.
      - cbn. rewrite (data_events _ _ E). reflexivity.
      - intros p Hp. apply list_elem_of_singleton in Hp. discriminate. }
    split; [exact Hsplit|]. cbn. rewrite (data_files _ _ E).
    split; [exact Hall|]. rewrite Hf. eauto.
  - rewrite retry_loop_stops in H. injection H as <- <-.
    split; [reflexivity|].
    apply (settled_quiet _ _ wf _ [Quit; Logged "Reconnected ..."]); [exact Hinv|..].
    + cbn. rewrite (data_files _ _ E). reflexivity.
    + cbn. rewrite (data_events _ _ E), <- app_assoc. reflexivity.
    + intros p Hp. apply elem_of_cons in Hp as [?|Hp]; [discriminate|].
      apply list_elem_of_singleton in Hp. discriminate.
Qed.

Lemma length_append a b :
  String.length (a +:+ b) = String.length a + String.length b.
Proof.
  induction a as [|c a IH]; [reflexivity|].
  change (String c a +:+ b) with (String c (a +:+ b)).
  cbn [String.length]. rewrite IH. reflexivity.
Qed.

(** The success entry of a file is not the entry of a cut transfer. *)
Lemma success_message_distinct p :
  success_message p ≠ "EOFError： FTP Server Disconnected" +:+ p
  ∧ success_message p
    ≠ "ConnectionResetError: The remote host forced an existing connection to close"
      +:+ p.
Proof.
  unfold success_message.
  split; intros E; apply (f_equal String.length) in E;
    rewrite !length_append in E; cbn in E; lia.
Qed.

(** When the retry loop ends no transfer is left unfinished: the loop
    returns with no file recorded, every file that was not there when it
    started and is there when it ends was opened for writing by the loop,
    and among the events of the loop the last opening of every file is
    followed at once by the success entry of that file, which is not the
    entry of a cut transfer. *)
Theorem retry_loop_leaves_no_partial fuel s e b w b' w' :
  retry_loop fuel s e b true w = Some (b', w') →
  (b' = None ∧ settled w None w')
  ∧ ∀ p, success_message p ≠ "EOFError： FTP Server Disconnected" +:+ p
         ∧ success_message p
           ≠ "ConnectionResetError: The remote host forced an existing connection to close"
             +:+ p.
Proof.
  intros H. split; [|apply success_message_distinct].
  apply (retry_loop_settled w s e fuel b w b' w' H).
  left. exists []. split; [rewrite app_nil_r; reflexivity|]. split.
  - intros p pre post E. destruct pre; discriminate.
  - intros q Hq [c Hc]. congruence.
Qed.

Lemma retry_loop_leaves_no_partial_witness :
  let w := mkworld ∅ ∅ [Transferred "a"; EOFError "b"; Transferred "c"] [] in
  ∃ b' w', retry_loop 3 12418 12418 None true w = Some (b', w')
           ∧ b' = None ∧ settled w None w'.
Proof.
  intros w.
  destruct (retry_loop 3 12418 12418 None true w) as [[b' w']|] eqn:E;
    [|vm_compute in E; discriminate].
  exists b', w'. split; [reflexivity|].
  apply (proj1 (retry_loop_leaves_no_partial 3 12418 12418 None w b' w' E)).
Defined.

Lemma data_network w1 w2 : data w1 = data w2 → network w1 = network w2.
Proof. intros [= ? ? ?]. assumption. Qed.

Lemma download_files_uses b ps w :
  ∃ used, network w = used ++ network (download_files b ps w).2
    ∧ match (download_files b ps w).1 with
      | Some _ =>
          ∃ before o, used = before ++ [o] ∧ is_disconnect o = true
                      ∧ Forall (fun o' => is_disconnect o' = false) before
      | None => Forall (fun o' => is_disconnect o' = false) used
      end.
Proof.
  revert w. induction ps as [|p ps IH]; intros w.
  { exists []. cbn. auto. }
  cbn [download_files].
  destruct (download_file_cases b p w)
    as [(_ & _ & ->)|(pre & o & msg & w1 & -> & _ & Hn & _)]; [apply IH|].
  destruct (is_disconnect o) eqn:Eo; cbn [fst snd].
  - destruct Hn as [(_ & -> & _)|Hn]; [discriminate|].
    exists [o]. split; [exact Hn|]. exists [], o. auto.
  - destruct (IH w1) as (used & Hu & Hm).
    destruct Hn as [(Hw & _ & Hw1)|Hn].
    + exists []. rewrite Hw1 in Hu. symmetry in Hu.
      apply app_eq_nil in Hu as [-> Hu]. rewrite Hw, Hu. split; [reflexivity|].
      destruct (download_files b ps w1).1; [|constructor].
      destruct Hm as (before & o' & Hb & _). destruct before; discriminate.
    + exists (o :: used). cbn. rewrite Hn, <- Hu. split; [reflexivity|].
      destruct (download_files b ps w1).1.
      * destruct Hm as (before & o' & -> & ? & ?).
        exists (o :: before), o'. repeat split; [assumption|].
        constructor; assumption.
      * constructor; assumption.
Qed.

(** A pass takes the transfers in the order in which the network delivers
    them and stops at the first one that is cut: when it reports completion
    none of the transfers it made was cut, and when it returns a recorded
    file exactly the last one was, so each pass uses up at most one
    disconnect. *)
Theorem download_stops_at_first_disconnect s e b flag w :
  ∃ used, network w = used ++ network (download s e b flag w).2
    ∧ match (download s e b flag w).1.1 with
      | Some _ =>
          ∃ before o, used = before ++ [o] ∧ is_disconnect o = true
                      ∧ Forall (fun o' => is_disconnect o' = false) before
      | None => Forall (fun o' => is_disconnect o' = false) used
      end.
Proof.
  destruct (download_pass s e b flag w) as (w1 & E & ->).
  destruct (download_files_uses b (all_paths s e) (emit Connected w))
    as (used & Hu & Hm).
  exists used. rewrite <- (data_network _ _ E) in Hu. cbn in Hu.
  destruct (download_files b (all_paths s e) (emit Connected w)).1;
    cbn [fst snd]; split; assumption.
Qed.

Lemma download_files_outside b ps w p :
  p ∉ ps →
  files (download_files b ps w).2 !! p = files w !! p
  ∧ ∃ evs, events (download_files b ps w).2 = events w ++ evs
           ∧ Forall (fun ev => ¬ touches p ev) evs.
Proof.
  revert w. induction ps as [|q ps IH]; intros w Hp.
  { cbn. split; [reflexivity|]. exists []. rewrite app_nil_r. auto. }
  apply not_elem_of_cons in Hp as [Hpq Hp]. cbn [download_files].
  destruct (download_file_cases b q w)
    as [(_ & _ & ->)|(pre & o & msg & w1 & -> & Hpre & _ & Hev & Hf & _)].
  { apply IH, Hp. }
  assert (files w1 !! p = files w !! p) as Hf1
    by (rewrite Hf, lookup_insert_ne by congruence; reflexivity).
  assert (Forall (fun ev => ¬ touches p ev) (pre ++ [Opened q; Logged msg])) as Hno.
  { apply Forall_app. split.
    - destruct Hpre as [(-> & _)|[-> _]]; [|constructor].
      constructor; [|constructor]. intros [[=]|[=]]. congruence.
    - constructor; [intros [[=]|[=]]; congruence|].
      constructor; [intros [[=]|[=]]|constructor]. }
  destruct (is_disconnect o); cbn [snd]; [eauto|].
  destruct (IH w1 Hp) as (IH1 & evs & IH2 & IH3).
  split; [congruence|].
  exists ((pre ++ [Opened q; Logged msg]) ++ evs).
  rewrite IH2, Hev, <- !app_assoc. split; [reflexivity|].
  apply Forall_app in Hno as [? ?].
  apply Forall_app. split; [assumption|]. apply Forall_app. auto.
Qed.

(** A path that is not one of the files of the range is out of reach of the
    downloader, recorded or not: a call of [download] leaves it as it is,
    there or not, and neither removes nor opens it. *)
Theorem download_outside_range s e b flag w p :
  p ∉ all_paths s e →
  files (download s e b flag w).2 !! p = files w !! p
  ∧ ∃ evs, events (download s e b flag w).2 = events w ++ evs
           ∧ Forall (fun ev => ¬ touches p ev) evs.
Proof.
  intros Hp. destruct (download_pass s e b flag w) as (w1 & E & ->).
  destruct (download_files_outside b (all_paths s e) (emit Connected w) p Hp)
    as (Hf & evs & Hev & Hno).
  rewrite <- (data_files _ _ E) in Hf. rewrite <- (data_events _ _ E) in Hev.
  cbn in Hev, Hf.
  destruct (download_files _ _ _).1; cbn [snd]; (split; [exact Hf|]).
  - exists (Connected :: evs). rewrite Hev, <- app_assoc. split; [reflexivity|].
    constructor; [intros [[=]|[=]]|assumption].
  - exists (Connected :: evs ++ [Quit]). cbn. rewrite Hev, <- !app_assoc.
    split; [reflexivity|]. constructor; [intros [[=]|[=]]|].
    apply Forall_app. split; [assumption|]. repeat constructor. intros [[=]|[=]].
Qed.

Lemma download_outside_range_witness :
  let w := mkworld {[ "notes.txt" := "keep" ]} ∅ [EOFError "y"] [] in
  files (download 12418 12418 (Some "notes.txt") true w).2 !! "notes.txt"
  = files w !! "notes.txt".
Proof.
  intros w.
  apply (proj1 (download_outside_range 12418 12418 (Some "notes.txt") true w
                  "notes.txt" ltac:(vm_compute; intros H;
                    repeat (apply elem_of_cons in H as [H|H]; [discriminate|]);
                    inversion H))).
Defined.

End DownloadExtras.
